(** * The per-clipboard entry store of [clipboard.cpp]

    A shallow embedding of [Clipboard] (entry index, entry selection,
    content filter, lock manager, retention engine) and the properties of
    its operations.  Ordinals are [unsigned long] values, modelled as [N]
    with the 64-bit wrap-around written out where the code can reach it. *)

From Stdlib Require Import NArith ZArith Ascii String List Lia.
From stdpp Require Import base tactics option list sorting numbers strings pretty gmap fin_maps.

Local Open Scope N_scope.

(** ** Machine integers *)

Definition ULONG_MAX : N := 2 ^ 64 - 1.
Definition INT_MIN : Z := (- 2 ^ 31)%Z.
Definition INT_MAX : Z := (2 ^ 31 - 1)%Z.

(** [unsigned long] addition and subtraction. *)
Definition ulong_add (a b : N) : N := (a + b) mod 2 ^ 64.
Definition ulong_sub (a b : N) : N := (a + 2 ^ 64 - b mod 2 ^ 64) mod 2 ^ 64.

(** ** Decimal parsing, as the standard library routines the code calls *)

Definition digit (c : ascii) : option N :=
  let n := N_of_ascii c in
  if decide (48 <= n <= 57) then Some (n - 48) else None.

Fixpoint leading_digits (s : string) : list N :=
  match s with
  | String c s' =>
      match digit c with
      | Some d => d :: leading_digits s'
      | None => []
      end
  | EmptyString => []
  end.

Definition decimal_value (ds : list N) : N :=
  foldl (fun acc d => 10 * acc + d) 0 ds.

(** [std::from_chars] into an [unsigned long], base 10: the longest run of
    digits at the start of the name, no sign, no white space.  [None] stands
    for an error code different from [std::errc()]: no digit at the start,
    or a value that does not fit. *)
Definition from_chars (s : string) : option N :=
  match leading_digits s with
  | [] => None
  | ds => let v := decimal_value ds in
          if decide (v <= ULONG_MAX) then Some v else None
  end.

(** ** The entry index *)

(** The order [std::sort] leaves the index in under [std::greater<>]: no
    element is smaller than its successor. *)
Definition descending : relation N := fun x y => y <= x.

#[global] Instance descending_dec : RelDecision descending.
Proof. intros x y. unfold descending. apply _. Defined.

#[global] Instance descending_total : Total descending.
Proof. intros x y. unfold descending. lia. Qed.

#[global] Instance descending_trans : Transitive descending.
Proof. intros x y z. unfold descending. lia. Qed.

(** The loop over the directory stream: a slot is pushed, filled by the
    conversion, and popped again when the conversion failed.  [parse] is
    how a child name becomes an ordinal: [std::from_chars] where
    [UNIX_OR_UNIX_LIKE] is defined. *)
Definition collect_names (parse : string -> option N) (names : list string) : list N :=
  foldl (fun pathNames name =>
           match parse name with
           | Some v => pathNames ++ [v]
           | None => pathNames
           end) [] names.

(** [std::sort(begin, end, std::greater<>())]. *)
Definition sort_descending (l : list N) : list N := merge_sort descending l.

Definition index_of_names (parse : string -> option N) (names : list string) : list N :=
  let pathNames := collect_names parse names in
  let pathNames := match pathNames with [] => [0] | _ => pathNames end in
  sort_descending pathNames.

(** [Clipboard::generatedEntryIndex] on a directory whose stream yields
    [names] (in any order, the dot entries included). *)
Definition generatedEntryIndex (names : list string) : list N :=
  index_of_names from_chars names.

(** ** Outcomes of a member function *)

Inductive exception : Type :=
| out_of_range
| invalid_argument
| regex_error.

(** The line the code prints on standard error, with its [%lu] argument. *)
Inductive diagnostic : Type :=
| NoSuchEntryMessage (chosen : N).

(** The process-wide state the error path touches: the global
    [clipboard_state], the progress indicator and standard error. *)
Record Console : Type := {
  clipboard_state_Error : bool;
  indicator_running : bool;
  stderr : list diagnostic
}.

Definition EXIT_FAILURE : Z := 1%Z.

(** A call returns, lets an exception escape (the object keeps what was
    assigned before the throw), ends the process through [exit], or has no
    defined behaviour. *)
Inductive result (A : Type) : Type :=
| Returned (a : A)
| Threw (e : exception) (a : A)
| Exited (status : Z) (k : Console)
| Undefined.
Arguments Returned {A} a.
Arguments Threw {A} e a.
Arguments Exited {A} status k.
Arguments Undefined {A}.

(** Modelled from the spec: [stopIndicator] is declared outside this
    file; it stops the progress indicator. *)
Definition stopIndicator (k : Console) : Console :=
  {| clipboard_state_Error := clipboard_state_Error k;
     indicator_running := false;
     stderr := stderr k |}.

(** The [catch (...)] block shared by the constructor and [entryPathFor],
    up to the call of [exit]: the state is set to [Error], the indicator
    is stopped and the message is printed. *)
Definition reportNoSuchEntry (chosen : N) (k : Console) : Console :=
  let k := {| clipboard_state_Error := true;
              indicator_running := indicator_running k;
              stderr := stderr k |} in
  let k := stopIndicator k in
  {| clipboard_state_Error := clipboard_state_Error k;
     indicator_running := indicator_running k;
     stderr := stderr k ++ [NoSuchEntryMessage chosen] |}.

(** ** The clipboard object *)

(** [data] holds the ordinal [n] of the handle
    [root / data_directory / std::to_string(n)]. *)
Record Clipboard : Type := {
  this_entry : N;
  entryIndex : list N;
  data : N
}.

(** [std::deque::at]: [None] stands for [std::out_of_range]. *)
Definition deque_at (index : list N) (pos : N) : option N :=
  index !! N.to_nat pos.

(** [Clipboard::Clipboard], for a data directory listing [names].  The
    handles of the metadata files are fixed paths under [root]; they and
    the directories the constructor creates after the entry is resolved
    are not part of the object state kept here. *)
Definition Clipboard_open (names : list string) (clipboard_entry : N) (k : Console)
  : result Clipboard :=
  let index := generatedEntryIndex names in
  match deque_at index clipboard_entry with
  | Some n => Returned {| this_entry := clipboard_entry; entryIndex := index; data := n |}
  | None => Exited EXIT_FAILURE (reportNoSuchEntry clipboard_entry k)
  end.

(** [Clipboard::makeNewEntry].  [front()] of an empty deque is undefined. *)
Definition makeNewEntry (c : Clipboard) : result Clipboard :=
  match entryIndex c with
  | [] => Undefined
  | front :: _ =>
      let index := ulong_add front 1 :: entryIndex c in
      match deque_at index (this_entry c) with
      | Some n => Returned {| this_entry := this_entry c; entryIndex := index; data := n |}
      | None => Threw out_of_range
                  {| this_entry := this_entry c; entryIndex := index; data := data c |}
      end
  end.

(** [k] calls in a row; the first call that does not return ends the run. *)
Fixpoint makeNewEntry_times (k : nat) (c : Clipboard) : result Clipboard :=
  match k with
  | O => Returned c
  | S k' =>
      match makeNewEntry c with
      | Returned c' => makeNewEntry_times k' c'
      | r => r
      end
  end.

(** [Clipboard::setEntry]: [this_entry] is assigned before [at] is tried,
    and nothing catches what [at] throws. *)
Definition setEntry (c : Clipboard) (entry : N) : result Clipboard :=
  match deque_at (entryIndex c) entry with
  | Some n => Returned {| this_entry := entry; entryIndex := entryIndex c; data := n |}
  | None => Threw out_of_range
              {| this_entry := entry; entryIndex := entryIndex c; data := data c |}
  end.

(** [Clipboard::entryPathFor]; the path is given by its ordinal. *)
Definition entryPathFor (index : list N) (entry : N) (k : Console) : result N :=
  match deque_at index entry with
  | Some n => Returned n
  | None => Exited EXIT_FAILURE (reportNoSuchEntry entry k)
  end.

(** ** [std::stoul], [std::stoull] and [std::stoi]

    White space is skipped, one sign is accepted, then the longest run of
    digits is converted; what follows the digits is ignored.  The result is
    the exception thrown or the value. *)

Definition isspace (c : ascii) : bool :=
  let n := N_of_ascii c in
  bool_decide (n = 32 \/ 9 <= n <= 13).

Fixpoint skip_spaces (s : string) : string :=
  match s with
  | String c s' => if isspace c then skip_spaces s' else s
  | EmptyString => s
  end.

Definition sign_and_digits (s : string) : bool * list N :=
  match skip_spaces s with
  | String c r =>
      if Ascii.eqb c "-" then (true, leading_digits r)
      else if Ascii.eqb c "+" then (false, leading_digits r)
      else (false, leading_digits (String c r))
  | EmptyString => (false, [])
  end.

(** A minus sign negates the converted value in the unsigned type. *)
Definition stoul (s : string) : exception + N :=
  let '(negative, ds) := sign_and_digits s in
  match ds with
  | [] => inl invalid_argument
  | _ =>
      let v := decimal_value ds in
      if decide (v <= ULONG_MAX)
      then inr (if negative then ulong_sub 0 v else v)
      else inl out_of_range
  end.

(** [unsigned long long] has the width of [unsigned long] here. *)
Definition stoull (s : string) : exception + N := stoul s.

Definition stoi (s : string) : exception + Z :=
  let '(negative, ds) := sign_and_digits s in
  match ds with
  | [] => inl invalid_argument
  | _ =>
      let v := Z.of_N (decimal_value ds) in
      let v := if negative then (- v)%Z else v in
      if decide (INT_MIN <= v <= INT_MAX)%Z then inr v else inl out_of_range
  end.

(** A conversion inside [try { ... } catch (...) {}]: the value, or
    nothing when it throws. *)
Definition converted {A : Type} (r : exception + A) : option A :=
  match r with
  | inr v => Some v
  | inl _ => None
  end.

(** [Clipboard::generatedEntryIndex] where [UNIX_OR_UNIX_LIKE] is not
    defined: the names are converted by [std::stoul]. *)
Definition generatedEntryIndex_portable (names : list string) : list N :=
  index_of_names (fun name => converted (stoul name)) names.

(** ** The lock manager *)

(** What the operating system answers about processes. *)
Record ProcessTable : Type := {
  thisPID : Z;
  getpgrp : Z;
  getpgid : Z -> Z
}.

(** One turn of the polling loop as this process observes it: whether
    [kill(pid, 0)] returned [-1], and whether the lock is still held. *)
Record Poll : Type := {
  kill_fails : bool;
  still_locked : bool
}.

(** A loop that waits on other processes has ended, or is still turning
    after every observed turn. *)
Inductive polling (A : Type) : Type :=
| Done (a : A)
| StillPolling.
Arguments Done {A} a.
Arguments StillPolling {A}.

(** Modelled from the spec: [isLocked] is declared outside this file; the
    lock is held when the lock file exists and is non-empty.  The lock file
    is given by its content, [None] when it does not exist. *)
Definition isLocked (lock : option string) : bool :=
  match lock with
  | Some content => negb (String.eqb content EmptyString)
  | None => false
  end.

(** The [while (true)] loop: [true] when one of its [break]s is reached. *)
Fixpoint wait_for_holder (polls : list Poll) : bool :=
  match polls with
  | [] => false
  | p :: rest =>
      if kill_fails p then true
      else if negb (still_locked p) then true
      else wait_for_holder rest
  end.

(** [Clipboard::getLock], the [UNIX_OR_UNIX_LIKE] branches.  The result
    carries the lock file as the call leaves it. *)
Definition getLock (P : ProcessTable) (polls : list Poll) (lock : option string)
  : polling (result (option string)) :=
  if isLocked lock then
    match stoi (default EmptyString lock) with
    | inl e => Done (Threw e lock)
    | inr pid =>
        if decide (getpgrp P = getpgid P pid) then Done (Returned lock)
        else if wait_for_holder polls
             then Done (Returned (Some (pretty (thisPID P))))
             else StillPolling
    end
  else Done (Returned (Some (pretty (thisPID P)))).

(** ** SHA-512 (FIPS 180-4), the function [SHA512] of the crypto library *)

Module Sha512.

Definition w64 (x : N) : N := x mod 2 ^ 64.
Definition add64 (x y : N) : N := w64 (x + y).
Definition rotr (n x : N) : N := N.lor (N.shiftr x n) (w64 (N.shiftl x (64 - n))).
Definition not64 (x : N) : N := N.lxor x (2 ^ 64 - 1).
Definition Ch (x y z : N) : N := N.lxor (N.land x y) (N.land (not64 x) z).
Definition Maj (x y z : N) : N :=
  N.lxor (N.land x y) (N.lxor (N.land x z) (N.land y z)).
Definition Sigma0 (x : N) : N := N.lxor (rotr 28 x) (N.lxor (rotr 34 x) (rotr 39 x)).
Definition Sigma1 (x : N) : N := N.lxor (rotr 14 x) (N.lxor (rotr 18 x) (rotr 41 x)).
Definition sigma0 (x : N) : N := N.lxor (rotr 1 x) (N.lxor (rotr 8 x) (N.shiftr x 7)).
Definition sigma1 (x : N) : N := N.lxor (rotr 19 x) (N.lxor (rotr 61 x) (N.shiftr x 6)).

Definition K : list N := [
  0x428a2f98d728ae22; 0x7137449123ef65cd; 0xb5c0fbcfec4d3b2f; 0xe9b5dba58189dbbc;
  0x3956c25bf348b538; 0x59f111f1b605d019; 0x923f82a4af194f9b; 0xab1c5ed5da6d8118;
  0xd807aa98a3030242; 0x12835b0145706fbe; 0x243185be4ee4b28c; 0x550c7dc3d5ffb4e2;
  0x72be5d74f27b896f; 0x80deb1fe3b1696b1; 0x9bdc06a725c71235; 0xc19bf174cf692694;
  0xe49b69c19ef14ad2; 0xefbe4786384f25e3; 0x0fc19dc68b8cd5b5; 0x240ca1cc77ac9c65;
  0x2de92c6f592b0275; 0x4a7484aa6ea6e483; 0x5cb0a9dcbd41fbd4; 0x76f988da831153b5;
  0x983e5152ee66dfab; 0xa831c66d2db43210; 0xb00327c898fb213f; 0xbf597fc7beef0ee4;
  0xc6e00bf33da88fc2; 0xd5a79147930aa725; 0x06ca6351e003826f; 0x142929670a0e6e70;
  0x27b70a8546d22ffc; 0x2e1b21385c26c926; 0x4d2c6dfc5ac42aed; 0x53380d139d95b3df;
  0x650a73548baf63de; 0x766a0abb3c77b2a8; 0x81c2c92e47edaee6; 0x92722c851482353b;
  0xa2bfe8a14cf10364; 0xa81a664bbc423001; 0xc24b8b70d0f89791; 0xc76c51a30654be30;
  0xd192e819d6ef5218; 0xd69906245565a910; 0xf40e35855771202a; 0x106aa07032bbd1b8;
  0x19a4c116b8d2d0c8; 0x1e376c085141ab53; 0x2748774cdf8eeb99; 0x34b0bcb5e19b48a8;
  0x391c0cb3c5c95a63; 0x4ed8aa4ae3418acb; 0x5b9cca4f7763e373; 0x682e6ff3d6b2b8a3;
  0x748f82ee5defb2fc; 0x78a5636f43172f60; 0x84c87814a1f0ab72; 0x8cc702081a6439ec;
  0x90befffa23631e28; 0xa4506cebde82bde9; 0xbef9a3f7b2c67915; 0xc67178f2e372532b;
  0xca273eceea26619c; 0xd186b8c721c0c207; 0xeada7dd6cde0eb1e; 0xf57d4f7fee6ed178;
  0x06f067aa72176fba; 0x0a637dc5a2c898a6; 0x113f9804bef90dae; 0x1b710b35131c471b;
  0x28db77f523047d84; 0x32caab7b40c72493; 0x3c9ebe0a15c9bebc; 0x431d67c49c100d4c;
  0x4cc5d4becb3e42b6; 0x597f299cfc657e2a; 0x5fcb6fab3ad6faec; 0x6c44198c4a475817
].

Definition H0 : list N := [
  0x6a09e667f3bcc908; 0xbb67ae8584caa73b; 0x3c6ef372fe94f82b; 0xa54ff53a5f1d36f1;
  0x510e527fade682d1; 0x9b05688c2b3e6c1f; 0x1f83d9abfb41bd6b; 0x5be0cd19137e2179
].

(** The padded message: a one bit, zeros up to 112 modulo 128 bytes, and
    the bit length on 16 bytes. *)
Definition big_endian (width : nat) (x : N) : list N :=
  map (fun i => (N.shiftr x (8 * N.of_nat i)) mod 256) (rev (seq 0 width)).

Definition pad (msg : list N) : list N :=
  let len := length msg in
  let zeros := ((128 + 112 - (len + 1) mod 128) mod 128)%nat in
  msg ++ [128] ++ repeat 0 zeros ++ big_endian 16 (8 * N.of_nat len).

Definition word_of_bytes (bs : list N) : N :=
  foldl (fun acc b => 256 * acc + b) 0 bs.

Fixpoint chunks (n : nat) (size : nat) (bs : list N) : list (list N) :=
  match n with
  | O => []
  | S n' => take size bs :: chunks n' size (drop size bs)
  end.

(** The message schedule, most recent word first while it is built. *)
Fixpoint schedule (n : nat) (recent : list N) : list N :=
  match n with
  | O => rev recent
  | S n' =>
      let w := add64 (add64 (sigma1 (nth 1 recent 0)) (nth 6 recent 0))
                     (add64 (sigma0 (nth 14 recent 0)) (nth 15 recent 0)) in
      schedule n' (w :: recent)
  end.

Definition round (v : list N) (kw : N * N) : list N :=
  match v with
  | [a; b; c; d; e; f; g; h] =>
      let T1 := add64 (add64 (add64 h (Sigma1 e)) (add64 (Ch e f g) (fst kw))) (snd kw) in
      let T2 := add64 (Sigma0 a) (Maj a b c) in
      [add64 T1 T2; a; b; c; add64 d T1; e; f; g]
  | _ => v
  end.

Definition compress (h : list N) (block : list N) : list N :=
  let W := schedule 64 (rev (map word_of_bytes (chunks 16 8 block))) in
  let v := foldl round h (zip K W) in
  zip_with add64 h v.

Definition digest (msg : list N) : list N :=
  let m := pad msg in
  let h := foldl compress H0 (chunks (length m / 128) 128 m) in
  concat (map (big_endian 8) h).

End Sha512.

Definition bytes_of_string (s : string) : list N :=
  map N_of_ascii (list_ascii_of_string s).

(** [SHA512(content.data(), content.size(), hash.data())]. *)
Definition SHA512 (content : string) : list N :=
  Sha512.digest (bytes_of_string content).

(** [ss << std::hex << std::setw(2) << std::setfill('0') << int(byte)] for
    every byte of the hash. *)
Definition hex_digit (n : N) : ascii :=
  if decide (n < 10) then ascii_of_N (48 + n) else ascii_of_N (87 + n).

Definition hex_of_bytes (bs : list N) : string :=
  string_of_list_ascii
    (concat (map (fun b => [hex_digit (b / 16); hex_digit (b mod 16)]) bs)).

(** ** The content filter *)

(** [std::regex] as the code uses it: construction from a line of text,
    which throws [std::regex_error] ([None]) on an invalid pattern,
    [std::regex_replace] with an empty replacement, [std::regex_match], and the
    helper [regexSplit(text, std::regex("\\s+"))]. *)
Class RegexEngine : Type := {
  regex : Type;
  regex_compile : string -> option regex;
  regex_replace : string -> regex -> string;
  regex_match : string -> regex -> bool;
  regexSplit_spaces : string -> list string
}.

(** The name of the raw payload file, [constants.data_file_name]. *)
Class Constants : Type := {
  data_file_name : string
}.

(** The files the filter reads and writes: the direct children of the
    current entry directory [data] by name, and the two metadata files,
    [None] when absent. *)
Record EntryFiles : Type := {
  data_dir : gmap string string;
  ignore : option string;
  ignore_secret : option string
}.

Definition raw `{Constants} (f : EntryFiles) : option string :=
  data_dir f !! data_file_name.

(** [fs::exists(p) && !fs::is_empty(p)] on a regular file. *)
Definition exists_nonempty (file : option string) : bool :=
  match file with
  | Some content => negb (String.eqb content EmptyString)
  | None => false
  end.

Definition holdsRawDataInCurrentEntry `{Constants} (f : EntryFiles) : bool :=
  exists_nonempty (raw f).

Definition holdsIgnoreRegexes (f : EntryFiles) : bool := exists_nonempty (ignore f).
Definition holdsIgnoreSecrets (f : EntryFiles) : bool := exists_nonempty (ignore_secret f).

Definition writeToFile_raw `{Constants} (f : EntryFiles) (content : string) : EntryFiles :=
  {| data_dir := <[data_file_name := content]> (data_dir f);
     ignore := ignore f;
     ignore_secret := ignore_secret f |}.

Fixpoint lines_from (line : list ascii) (s : string) : list string :=
  match s with
  | EmptyString =>
      match line with
      | [] => []
      | _ => [string_of_list_ascii (rev line)]
      end
  | String c s' =>
      if Ascii.eqb c "010"
      then string_of_list_ascii (rev line) :: lines_from [] s'
      else lines_from (c :: line) s'
  end.

(** Modelled from the spec: the helper [fileLines] is declared outside this
    file; it gives each line of a newline-delimited text file. *)
Definition fileLines (content : string) : list string := lines_from [] content.

(** [Clipboard::ignoreRegexes]: the first line that is not a pattern
    throws. *)
Definition ignoreRegexes `{RegexEngine} (f : EntryFiles) : option (list regex) :=
  if holdsIgnoreRegexes f
  then mapM regex_compile (fileLines (default EmptyString (ignore f)))
  else Some [].

(** [Clipboard::ignoreSecrets]. *)
Definition ignoreSecrets (f : EntryFiles) : list string :=
  if holdsIgnoreSecrets f
  then fileLines (default EmptyString (ignore_secret f))
  else [].

(** The loop over the patterns on the raw content. *)
Definition scrub `{RegexEngine} (content : string) (regexes : list regex) : string :=
  foldl regex_replace content regexes.

(** The loops over the patterns and the children of [data]:
    [fs::remove_all] of every child whose name matches. *)
Definition remove_matching `{RegexEngine} (dir : gmap string string) (regexes : list regex)
  : gmap string string :=
  foldl (fun d r => filter (fun entry => regex_match (fst entry) r = false) d) dir regexes.

(** The first block of [Clipboard::applyIgnoreRules]. *)
Definition applyIgnoreRegexes `{RegexEngine} `{Constants} (f : EntryFiles) : result EntryFiles :=
  if holdsIgnoreRegexes f then
    match ignoreRegexes f with
    | None => Threw regex_error f
    | Some regexes =>
        if holdsRawDataInCurrentEntry f then
          let content := default EmptyString (raw f) in
          Returned (writeToFile_raw f (scrub content regexes))
        else
          Returned {| data_dir := remove_matching (data_dir f) regexes;
                      ignore := ignore f;
                      ignore_secret := ignore_secret f |}
    end
  else Returned f.

(** The loop over the secrets: the hash of the content is formatted at
    every turn and compared with the line. *)
Fixpoint match_secrets `{Constants} (f : EntryFiles) (content : string) (secrets : list string)
  : EntryFiles :=
  match secrets with
  | [] => f
  | secret :: rest =>
      if String.eqb (hex_of_bytes (SHA512 content)) secret
      then writeToFile_raw f EmptyString
      else match_secrets f content rest
  end.

(** Whether the formatted digest of the content is one of the lines. *)
Definition listed (content : string) (secrets : list string) : bool :=
  bool_decide (hex_of_bytes (SHA512 content) ∈ secrets).

(** The second block of [Clipboard::applyIgnoreRules]. *)
Definition applyIgnoreSecrets `{Constants} (f : EntryFiles) : EntryFiles :=
  if holdsIgnoreSecrets f then
    let secrets := ignoreSecrets f in
    if negb (holdsRawDataInCurrentEntry f) then f
    else match_secrets f (default EmptyString (raw f)) secrets
  else f.

(** [Clipboard::applyIgnoreRules]. *)
Definition applyIgnoreRules `{RegexEngine} `{Constants} (f : EntryFiles) : result EntryFiles :=
  match applyIgnoreRegexes f with
  | Returned f' => Returned (applyIgnoreSecrets f')
  | r => r
  end.

(** *** Patterns without metacharacters

    On a pattern made of letters and digits only, [std::regex] matches the
    pattern text itself.  This engine interprets that fragment and nothing
    else; it serves to run the filter on concrete files. *)

Definition alphanumeric (c : ascii) : bool :=
  let n := N_of_ascii c in
  bool_decide (48 <= n <= 57 \/ 65 <= n <= 90 \/ 97 <= n <= 122).

Fixpoint all_chars (p : ascii -> bool) (s : string) : bool :=
  match s with
  | EmptyString => true
  | String c s' => p c && all_chars p s'
  end.

(** Every occurrence of [lit] found from left to right is dropped; [skip]
    counts the characters of the current occurrence still to drop. *)
Fixpoint remove_literal (lit : string) (skip : nat) (s : string) : string :=
  match s with
  | EmptyString => EmptyString
  | String c s' =>
      match skip with
      | S n => remove_literal lit n s'
      | O =>
          if String.prefix lit s && negb (String.eqb lit EmptyString)
          then remove_literal lit (String.length lit - 1) s'
          else String c (remove_literal lit 0 s')
      end
  end.

(** The pieces between maximal runs of white space; a run at the start
    leaves an empty first piece, a run at the end leaves nothing. *)
Fixpoint split_spaces (piece : list ascii) (in_run : bool) (s : string) : list string :=
  match s with
  | EmptyString =>
      if in_run then [] else [string_of_list_ascii (rev piece)]
  | String c s' =>
      if isspace c then
        if in_run then split_spaces [] true s'
        else string_of_list_ascii (rev piece) :: split_spaces [] true s'
      else split_spaces (c :: piece) false s'
  end.

Definition literal_engine : RegexEngine := {|
  regex := string;
  regex_compile := fun line => if all_chars alphanumeric line then Some line else None;
  regex_replace := fun content lit => remove_literal lit 0 content;
  regex_match := fun name lit => String.eqb name lit;
  regexSplit_spaces := fun text =>
    match text with
    | EmptyString => []
    | _ => split_spaces [] false text
    end
|}.

(** ** The retention engine *)

(** [std::stold(setting) * factor], converted to the unsigned budget it is
    assigned to; [None] when [std::stold] throws.  [factor] is the product
    of the constants the code multiplies by. *)
Class LongDouble : Type := {
  stold_scaled : string -> N -> option N
}.

Record Budgets : Type := {
  maximumBytes : N;
  maximumSeconds : N;
  maximumEntries : N
}.

Definition no_budget : Budgets :=
  {| maximumBytes := 0; maximumSeconds := 0; maximumEntries := 0 |}.

Definition set_maximumBytes (b : Budgets) (v : N) : Budgets :=
  {| maximumBytes := v; maximumSeconds := maximumSeconds b; maximumEntries := maximumEntries b |}.
Definition set_maximumSeconds (b : Budgets) (v : N) : Budgets :=
  {| maximumBytes := maximumBytes b; maximumSeconds := v; maximumEntries := maximumEntries b |}.
Definition set_maximumEntries (b : Budgets) (v : N) : Budgets :=
  {| maximumBytes := maximumBytes b; maximumSeconds := maximumSeconds b; maximumEntries := v |}.

(** An assignment inside [try { ... } catch (...) {}]: a conversion that
    throws leaves the budgets as they were. *)
Definition assign (set : Budgets -> N -> Budgets) (b : Budgets) (v : option N) : Budgets :=
  match v with
  | Some v => set b v
  | None => b
  end.

Definition tolower (c : ascii) : ascii :=
  let n := N_of_ascii c in
  if decide (65 <= n <= 90) then ascii_of_N (n + 32) else c.

Fixpoint string_map (f : ascii -> ascii) (s : string) : string :=
  match s with
  | EmptyString => EmptyString
  | String c s' => String (f c) (string_map f s')
  end.

(** What lies in front of the characters of a short [std::string] as the
    GNU library lays it out: the characters are held in the buffer inside
    the string object, and the object keeps the length of the string, a
    [size_t], right in front of that buffer; its two highest bytes, both
    zero, are the two bytes next to the characters. *)
Definition before_buffer : string := String zero (String zero EmptyString).

(** [std::string lastTwoChars(setting.end() - 2, setting.end())] followed
    by the [std::transform] to lower case.  On a token shorter than two
    characters [setting.end() - 2] lies before [setting.begin()], and the
    range reads on from the bytes in front of the buffer: a token of one
    character gives a zero byte and that character. *)
Definition lastTwoChars (setting : string) : string :=
  let held := before_buffer +:+ setting in
  string_map tolower (substring (String.length held - 2) 2 held).

Definition KiB : N := 1024.
Definition minute : N := 60.

(** The body of the loop over the settings. *)
Definition parseSetting `{LongDouble} (b : Budgets) (setting : string) : Budgets :=
  let two := lastTwoChars setting in
  if String.eqb two "tb" then
    assign set_maximumBytes b (stold_scaled setting (KiB * KiB * KiB * KiB))
  else if String.eqb two "gb" then
    assign set_maximumBytes b (stold_scaled setting (KiB * KiB * KiB))
  else if String.eqb two "mb" then
    assign set_maximumBytes b (stold_scaled setting (KiB * KiB))
  else if String.eqb two "kb" then
    assign set_maximumBytes b (stold_scaled setting KiB)
  else
    match String.get 1 two with
    | None => b
    | Some c =>
        if Ascii.eqb c "b" then
          assign set_maximumBytes b (converted (stoull setting))
        else if Ascii.eqb c "y" then
          assign set_maximumSeconds b (stold_scaled setting (minute * minute * 24 * 365))
        else if Ascii.eqb c "m" then
          assign set_maximumSeconds b (stold_scaled setting (minute * minute * 24 * 30))
        else if Ascii.eqb c "w" then
          assign set_maximumSeconds b (stold_scaled setting (minute * minute * 24 * 7))
        else if Ascii.eqb c "d" then
          assign set_maximumSeconds b (stold_scaled setting (minute * minute * 24))
        else if Ascii.eqb c "h" then
          assign set_maximumSeconds b (stold_scaled setting (minute * minute))
        else if Ascii.eqb c "s" then
          assign set_maximumSeconds b (converted (stoul setting))
        else
          assign set_maximumEntries b (converted (stoul setting))
    end.

(** The loop over the settings, from budgets all zero. *)
Fixpoint parseSettings_from `{LongDouble} (b : Budgets) (settings : list string)
  : Budgets :=
  match settings with
  | [] => b
  | setting :: rest => parseSettings_from (parseSetting b setting) rest
  end.

Definition parseSettings `{LongDouble} (settings : list string) : Budgets :=
  parseSettings_from no_budget settings.

(** The entry directories of the clipboard by ordinal, each with its
    recursive size and its modification time in seconds, and the size of
    all that lies under [root] outside them. *)
Record EntryDir : Type := {
  dir_size : N;
  dir_mtime : Z
}.

Record Store : Type := {
  entries : gmap N EntryDir;
  other_size : N
}.

(** Modelled from the spec: the helper [totalDirectorySize] is declared
    outside this file; it is the recursive size of a directory.  Here for
    [root]. *)
Definition totalDirectorySize_root (st : Store) : N :=
  other_size st + map_fold (fun _ e acc => dir_size e + acc) 0 (entries st).

(** Modelled from the spec: the same helper, for the directory of the
    entry [n]; nothing lies under a directory that does not exist. *)
Definition totalDirectorySize_entry (st : Store) (n : N) : N :=
  match entries st !! n with
  | Some e => dir_size e
  | None => 0
  end.

(** [fs::remove_all] on the directory of the entry [n]. *)
Definition remove_all (st : Store) (n : N) : Store :=
  {| entries := delete n (entries st); other_size := other_size st |}.

(** A count of [std::chrono] is a signed integer of 64 bits: the value
    a result has once only its low 64 bits are kept, which is what the
    conversion of an [unsigned long] and the arithmetic of the machine
    leave. *)
Definition int64 (z : Z) : Z := ((z + 2 ^ 63) mod 2 ^ 64 - 2 ^ 63)%Z.

(** A count of seconds as the count of nanoseconds the time points of the
    system clock are made of. *)
Definition nanoseconds (seconds : Z) : Z := int64 (seconds * 10 ^ 9).

(** The lambda [lastModified], in nanoseconds: [from_time_t] of the
    modification time, and [now] when [stat] fails. *)
Definition lastModified (st : Store) (now : Z) (n : N) : Z :=
  match entries st !! n with
  | Some e => nanoseconds (dir_mtime e)
  | None => now
  end.

(** [now - std::chrono::seconds(maximumSeconds)]: the budget, an
    [unsigned long], becomes the signed count of a duration in seconds, and
    the duration is taken off the time point in nanoseconds. *)
Definition oldest_allowed (maximumSeconds : N) (now : Z) : Z :=
  int64 (now - nanoseconds (int64 (Z.of_N maximumSeconds))).

(** The three loops pop the deque at its back.  They are written over the
    deque read from the back, [oldest_first]: its head is
    [entryPathFor(entryIndex.size() - 1)], and on the empty deque that call
    is [entryPathFor] of the wrapped [0 - 1], which ends the process. *)
Definition no_oldest_entry {A : Type} (k : Console) : result A :=
  Exited EXIT_FAILURE (reportNoSuchEntry (ulong_sub 0 1) k).

Fixpoint evict_bytes (maximumBytes : N) (startingClipboardSize : N)
  (oldest_first : list N) (st : Store) (k : Console) : result (list N * Store) :=
  if decide (maximumBytes < startingClipboardSize) then
    match oldest_first with
    | [] => no_oldest_entry k
    | oldest :: rest =>
        let oldestEntrySize := totalDirectorySize_entry st oldest in
        evict_bytes maximumBytes (ulong_sub startingClipboardSize oldestEntrySize)
          rest (remove_all st oldest) k
    end
  else Returned (oldest_first, st).

Fixpoint evict_seconds (maximumSeconds : N) (now : Z)
  (oldest_first : list N) (st : Store) (k : Console) : result (list N * Store) :=
  match oldest_first with
  | [] => no_oldest_entry k
  | oldest :: rest =>
      if decide (lastModified st now oldest < oldest_allowed maximumSeconds now)%Z
      then evict_seconds maximumSeconds now rest (remove_all st oldest) k
      else Returned (oldest_first, st)
  end.

Fixpoint evict_entries (maximumEntries : N)
  (oldest_first : list N) (st : Store) (k : Console) : result (list N * Store) :=
  if decide (maximumEntries < N.of_nat (length oldest_first)) then
    match oldest_first with
    | [] => no_oldest_entry k
    | oldest :: rest => evict_entries maximumEntries rest (remove_all st oldest) k
    end
  else Returned (oldest_first, st).

(** One block after the other.  The blocks return or end the process;
    no exception leaves them, and the sequence has no state to hand on
    for one. *)
Definition and_then {A B : Type} (r : result A) (f : A -> result B) : result B :=
  match r with
  | Returned a => f a
  | Threw e _ => Undefined
  | Exited status k => Exited status k
  | Undefined => Undefined
  end.

(** The three [if] blocks of [Clipboard::trimHistoryEntries]. *)
Definition size_block (b : Budgets) (oldest_first : list N) (st : Store) (k : Console)
  : result (list N * Store) :=
  if decide (0 < maximumBytes b)
  then evict_bytes (maximumBytes b) (totalDirectorySize_root st) oldest_first st k
  else Returned (oldest_first, st).

Definition age_block (b : Budgets) (now : Z) (oldest_first : list N) (st : Store)
  (k : Console) : result (list N * Store) :=
  if decide (0 < maximumSeconds b)
  then evict_seconds (maximumSeconds b) now oldest_first st k
  else Returned (oldest_first, st).

Definition count_block (b : Budgets) (oldest_first : list N) (st : Store) (k : Console)
  : result (list N * Store) :=
  if decide (0 < maximumEntries b) then
    if decide (N.of_nat (length oldest_first) <= maximumEntries b \/ maximumEntries b = 0)
    then Returned (oldest_first, st)
    else evict_entries (maximumEntries b) oldest_first st k
  else Returned (oldest_first, st).

(** [Clipboard::trimHistoryEntries] once the settings are parsed. *)
Definition evict (b : Budgets) (now : Z) (index : list N) (st : Store) (k : Console)
  : result (list N * Store) :=
  and_then (size_block b (reverse index) st k) (fun '(oldest_first, st) =>
  and_then (age_block b now oldest_first st k) (fun '(oldest_first, st) =>
  and_then (count_block b oldest_first st k) (fun '(oldest_first, st) =>
  Returned (reverse oldest_first, st)))).

(** [Clipboard::trimHistoryEntries]. *)
Definition trimHistoryEntries `{RegexEngine} `{LongDouble}
  (maximumHistorySize : string) (now : Z) (c : Clipboard) (st : Store) (k : Console)
  : result (Clipboard * Store) :=
  if String.eqb maximumHistorySize EmptyString then Returned (c, st)
  else
    let b := parseSettings (regexSplit_spaces maximumHistorySize) in
    and_then (evict b now (entryIndex c) st k)
      (fun '(index, st') =>
         Returned ({| this_entry := this_entry c; entryIndex := index; data := data c |},
                   st')).

(** No floating literal is interpreted: every [std::stold] throws.  It
    serves to run the engine on settings that do not go through
    [std::stold]. *)
Definition no_long_double : LongDouble := {| stold_scaled := fun _ _ => None |}.

(** The name the examples give to the raw payload file. *)
Definition example_constants : Constants := {| data_file_name := "rawdata.clipboard" |}.

(** The lower-case hexadecimal SHA-512 digest of the text [password]. *)
Definition password_digest : string :=
  "b109f3bbbc244eb82441917ed06d618b9008dd09b3befd1b5e07394c706a8bb9"
  ++ "80b1d7785e5976ec049b46df5f1326af5a2ea6d103fd07c95385ffab0cacbc86".

(** Three entries to run the filter on. *)
Definition files_password : EntryFiles :=
  {| data_dir := {[ "rawdata.clipboard"%string := "password"%string ]};
     ignore := None;
     ignore_secret := Some password_digest |}.

Definition files_hello : EntryFiles :=
  {| data_dir := {[ "rawdata.clipboard"%string := "hello 12345 world 1"%string ]};
     ignore := Some "1"%string;
     ignore_secret := None |}.

Definition files_password1 : EntryFiles :=
  {| data_dir := {[ "rawdata.clipboard"%string := "password1"%string ]};
     ignore := Some "1"%string;
     ignore_secret := Some password_digest |}.

(** The lower-case hexadecimal SHA-512 digest of the text [password1]. *)
Definition password1_digest : string :=
  "bc547750b92797f955b36112cc9bdd5cddf7d0862151d03a167ada8995aa24a9"
  ++ "ad24610b36a68bc02da24141ee51670aea13ed6469099a4453f335cb239db5da".

(** The same entry with its own digest listed as a secret. *)
Definition files_password1_listed : EntryFiles :=
  {| data_dir := {[ "rawdata.clipboard"%string := "password1"%string ]};
     ignore := Some "1"%string;
     ignore_secret := Some password1_digest |}.

(** What a loop that pops the deque at its back and removes the popped
    directories has done after [j] turns, on the deque read from the
    back. *)
Definition popped (oldest_first : list N) (st : Store)
  (oldest_first' : list N) (st' : Store) : Prop :=
  exists j : nat,
    oldest_first' = drop j oldest_first /\
    st' = foldl remove_all st (take j oldest_first).

(** How one of the three loops ends: it returns after popping some
    elements, or it ran out of elements and [entryPathFor] ended the
    process. *)
Definition pops_from_back (oldest_first : list N) (st : Store) (k : Console)
  (r : result (list N * Store)) : Prop :=
  match r with
  | Returned (oldest_first', st') => popped oldest_first st oldest_first' st'
  | Exited status k' =>
      status = EXIT_FAILURE /\ k' = reportNoSuchEntry (ulong_sub 0 1) k
  | _ => False
  end.

(** Clipboards and stores to run the retention engine on. *)
Definition console0 : Console :=
  {| clipboard_state_Error := false; indicator_running := true; stderr := [] |}.

Definition clip_four : Clipboard := {| this_entry := 0; entryIndex := [3; 2; 1; 0]; data := 3 |}.
Definition clip_single : Clipboard := {| this_entry := 0; entryIndex := [0]; data := 0 |}.

Definition store_four : Store :=
  {| entries := list_to_map
                  (map (fun n => (n, {| dir_size := 10; dir_mtime := 5 |})) [0; 1; 2; 3]);
     other_size := 1 |}.

Definition store_single : Store :=
  {| entries := {[ 0 := {| dir_size := 100; dir_mtime := 5 |} ]}; other_size := 0 |}.

Definition store_heavy_metadata : Store :=
  {| entries := {[ 0 := {| dir_size := 10; dir_mtime := 5 |} ]}; other_size := 100 |}.

(** The last characters the loop over the settings takes for a unit. *)
Definition unit_letter (c : ascii) : bool :=
  existsb (Ascii.eqb c) ["b"; "y"; "m"; "w"; "d"; "h"; "s"]%char.

Definition isdigit (c : ascii) : bool := bool_decide (is_Some (digit c)).

(** ** Further parts of the store *)

(** [std::to_string] on an [unsigned long]: its decimal digits.  The last
    component of the path of an entry directory. *)
Definition to_string (n : N) : string := pretty n.

(** The current position resolves to the data handle: what the
    constructor, [setEntry] and [makeNewEntry] assign to [data]. *)
Definition resolved (c : Clipboard) : Prop :=
  deque_at (entryIndex c) (this_entry c) = Some (data c).

(** A direct child of the entry directory: a regular file with its
    content, or a directory with the names it lists. *)
Inductive child : Type :=
| RegularFile (content : string)
| Subdirectory (names : list string).

(** [fs::is_empty] on a path that exists. *)
Definition is_empty (c : child) : bool :=
  match c with
  | RegularFile content => String.eqb content EmptyString
  | Subdirectory names =>
      match names with
      | [] => true
      | _ => false
      end
  end.

(** The current entry directory [data] by the names of its children,
    [None] when it does not exist, and the two metadata files [isUnused]
    looks at. *)
Record EntryTree : Type := {
  data_tree : option (gmap string child);
  notes : option string;
  originals : option string
}.

(** [Clipboard::holdsRawDataInCurrentEntry] on such a directory: the error
    code set for a missing file gives [false]. *)
Definition holdsRawData_in `{Constants} (d : gmap string child) : bool :=
  match d !! data_file_name with
  | Some c => negb (is_empty c)
  | None => false
  end.

(** [Clipboard::holdsDataInCurrentEntry].  [fs::is_empty(data)] throws
    when [data] does not exist ([None]); the loop over the directory
    returns at the first child that is not empty. *)
Definition holdsDataInCurrentEntry `{Constants} (t : EntryTree) : option bool :=
  match data_tree t with
  | None => None
  | Some d =>
      Some (if decide (d = ∅) then false
            else if holdsRawData_in d then true
            else existsb (fun entry => negb (is_empty (snd entry))) (map_to_list d))
  end.

(** [Clipboard::isUnused]. *)
Definition isUnused `{Constants} (t : EntryTree) : option bool :=
  match holdsDataInCurrentEntry t with
  | None => None
  | Some true => Some false
  | Some false =>
      if exists_nonempty (notes t) then Some false
      else if exists_nonempty (originals t) then Some false
      else Some true
  end.

(** A call that probes the file system ran to one of the outcomes of a
    member function, or [fs::is_empty] threw on a path that does not
    exist. *)
Inductive fs_call (A : Type) : Type :=
| Ran (r : result A)
| filesystem_error.
Arguments Ran {A} r.
Arguments filesystem_error {A}.

(** The loop of [Clipboard::holdsData] over the elements of the index
    still to visit.  Each element is handed to [entryPathFor], which reads
    it as a position.  [is_empty_entry n] is [fs::is_empty] on the
    directory of the entry [n], [None] when it does not exist. *)
Fixpoint holdsData_from (index : list N) (is_empty_entry : N -> option bool)
  (k : Console) (remaining : list N) : fs_call bool :=
  match remaining with
  | [] => Ran (Returned false)
  | entry :: rest =>
      match entryPathFor index entry k with
      | Returned path =>
          match is_empty_entry path with
          | None => filesystem_error
          | Some false => Ran (Returned true)
          | Some true => holdsData_from index is_empty_entry k rest
          end
      | ended => Ran (and_then ended (fun _ => Returned true))
      end
  end.

(** [Clipboard::holdsData]. *)
Definition holdsData (c : Clipboard) (is_empty_entry : N -> option bool) (k : Console)
  : fs_call bool :=
  holdsData_from (entryIndex c) is_empty_entry k (entryIndex c).

(** The index of a history without gaps: [n - 1], ..., 1, 0. *)
Definition countdown (n : nat) : list N := N.of_nat <$> reverse (seq 0 n).

(** The characters of a formatted digest. *)
Definition lowercase_hex (c : ascii) : bool :=
  let n := N_of_ascii c in
  bool_decide (48 <= n <= 57 \/ 97 <= n <= 102).

(** The entry [n] has expired at the time [now] for the age budget: the
    condition of the [while] of the age loop, with the time points as the
    code computes them. *)
Definition expired (maximumSeconds : N) (now : Z) (st : Store) (n : N) : Prop :=
  (lastModified st now n < oldest_allowed maximumSeconds now)%Z.

(** The order of an index without repeated ordinals: every element is
    larger than its successor. *)
Definition newer : relation N := fun x y => y < x.

(** More entries and stores to run the code on. *)
Definition files_items : EntryFiles :=
  {| data_dir := {[ "secret"%string := "x"%string; "report"%string := "y"%string ]};
     ignore := Some "secret"%string;
     ignore_secret := None |}.

Definition files_bad_pattern : EntryFiles :=
  {| data_dir := {[ "rawdata.clipboard"%string := "password"%string ]};
     ignore := Some "("%string;
     ignore_secret := Some password_digest |}.

Definition files_short_secret : EntryFiles :=
  {| data_dir := {[ "rawdata.clipboard"%string := "password"%string ]};
     ignore := None;
     ignore_secret := Some "abc"%string |}.

Definition store_aging : Store :=
  {| entries := {[ 0 := {| dir_size := 10; dir_mtime := 10 |};
                   1 := {| dir_size := 10; dir_mtime := 20 |};
                   2 := {| dir_size := 10; dir_mtime := 95 |};
                   3 := {| dir_size := 10; dir_mtime := 99 |} ]};
     other_size := 1 |}.

Definition clip_two : Clipboard := {| this_entry := 0; entryIndex := [3; 2]; data := 3 |}.
Definition clip_oldest : Clipboard := {| this_entry := 3; entryIndex := [3; 2; 1; 0]; data := 0 |}.

(** * Properties *)

(** ** The entry index *)

Lemma collect_names_from (parse : string -> option N) (names : list string) (acc : list N) :
  foldl (fun pathNames name =>
           match parse name with
           | Some v => pathNames ++ [v]
           | None => pathNames
           end) acc names = acc ++ omap parse names.
Proof.
  revert acc. induction names as [|name names IH]; intros acc; simpl.
  - by rewrite app_nil_r.
  - destruct (parse name) as [v|]; rewrite IH; [|done].
    by rewrite <- app_assoc.
Qed.

Lemma collect_names_omap (parse : string -> option N) (names : list string) :
  collect_names parse names = omap parse names.
Proof. unfold collect_names. by rewrite collect_names_from. Qed.

Lemma sort_descending_sorted (l : list N) : Sorted descending (sort_descending l).
Proof. apply (Sorted_merge_sort descending). Qed.

Lemma sort_descending_perm (l : list N) : sort_descending l ≡ₚ l.
Proof. apply merge_sort_Permutation. Qed.

Lemma index_of_names_perm (parse : string -> option N) (names : list string) :
  index_of_names parse names ≡ₚ
    match omap parse names with
    | [] => [0]
    | parsed => parsed
    end.
Proof.
  unfold index_of_names. rewrite sort_descending_perm, collect_names_omap.
  by destruct (omap parse names).
Qed.

Lemma index_of_names_nonempty (parse : string -> option N) (names : list string) :
  index_of_names parse names <> [].
Proof.
  intros Hnil. pose proof (index_of_names_perm parse names) as Hp.
  rewrite Hnil in Hp. apply Permutation_nil_l in Hp.
  by destruct (omap parse names).
Qed.

(** C2, as the code has it: for every directory listing the index is in
    non-increasing order and holds one element for each child name that
    [std::from_chars] converts (the value of its leading digits), or the
    single element 0 when no name converts.  Nothing removes repeated
    values.  The same holds with [std::stoul] where the platform branch
    uses it. *)
Theorem generatedEntryIndex_sorted_permutation (names : list string) :
  Sorted descending (generatedEntryIndex names) /\
  generatedEntryIndex names ≡ₚ
    match omap from_chars names with
    | [] => [0]
    | parsed => parsed
    end /\
  Sorted descending (generatedEntryIndex_portable names) /\
  generatedEntryIndex_portable names ≡ₚ
    match omap (fun name => converted (stoul name)) names with
    | [] => [0]
    | parsed => parsed
    end.
Proof.
  repeat split.
  - apply sort_descending_sorted.
  - apply index_of_names_perm.
  - apply sort_descending_sorted.
  - apply index_of_names_perm.
Qed.

(** C2 as stated fails: two distinct child names with the same value give
    an index with a repeated element, which is not strictly decreasing. *)
Lemma generatedEntryIndex_repeats :
  generatedEntryIndex ["."; ".."; "7"; "07"]%string = [7; 7] /\
  generatedEntryIndex_portable ["."; ".."; "7"; "07"]%string = [7; 7] /\
  ~ NoDup (generatedEntryIndex ["."; ".."; "7"; "07"]%string) /\
  ~ Sorted (fun x y => y < x) (generatedEntryIndex ["."; ".."; "7"; "07"]%string).
Proof.
  assert (generatedEntryIndex ["."; ".."; "7"; "07"]%string = [7; 7]) as -> by reflexivity.
  split; [done|]. split; [reflexivity|]. split.
  - intros Hnd. apply NoDup_cons in Hnd as [Hin _]. apply Hin. left.
  - intros Hs. apply Sorted_inv in Hs as [_ Hhd].
    apply HdRel_inv in Hhd. lia.
Qed.

(** A name with digits in front of other characters counts as well. *)
Example generatedEntryIndex_prefix :
  generatedEntryIndex ["12abc"; "x1"; "3"]%string = [12; 3].
Proof. reflexivity. Qed.

(** ** Opening a clipboard *)

(** C10: whatever the data directory lists, the generated index is not
    empty (on either platform branch), so opening at position 0 returns:
    the constructor does not take its error branch, and the data handle is
    the front of the index. *)
Theorem Clipboard_open_newest_returns (names : list string) (k : Console) :
  generatedEntryIndex names <> [] /\
  generatedEntryIndex_portable names <> [] /\
  exists n,
    head (generatedEntryIndex names) = Some n /\
    Clipboard_open names 0 k =
      Returned {| this_entry := 0; entryIndex := generatedEntryIndex names; data := n |}.
Proof.
  pose proof (index_of_names_nonempty from_chars names) as Hne.
  split; [exact Hne|]. split; [apply index_of_names_nonempty|].
  unfold Clipboard_open, deque_at, generatedEntryIndex in *.
  destruct (index_of_names from_chars names) as [|n rest] eqn:Hidx; [done|].
  exists n. by simpl.
Qed.

(** ** Choosing and adding entries *)

Lemma deque_at_None (index : list N) (pos : N) :
  N.of_nat (length index) <= pos -> deque_at index pos = None.
Proof. intros Hle. unfold deque_at. apply lookup_ge_None. lia. Qed.

Lemma deque_at_is_Some (index : list N) (pos : N) :
  pos < N.of_nat (length index) -> is_Some (deque_at index pos).
Proof. intros Hlt. unfold deque_at. apply lookup_lt_is_Some. lia. Qed.

(** C3, what the code does: at a position outside the index [setEntry]
    has already stored the position when [at] throws; the exception leaves
    [setEntry] uncaught, and nothing there stops the indicator, prints or
    exits.  The sibling [entryPathFor] catches the same failure and ends
    the process with the message that names the position. *)
Theorem setEntry_out_of_range_escapes (c : Clipboard) (entry : N) :
  N.of_nat (length (entryIndex c)) <= entry ->
  setEntry c entry =
    Threw out_of_range
      {| this_entry := entry; entryIndex := entryIndex c; data := data c |} /\
  forall k : Console,
    entryPathFor (entryIndex c) entry k =
      Exited EXIT_FAILURE
        {| clipboard_state_Error := true;
           indicator_running := false;
           stderr := stderr k ++ [NoSuchEntryMessage entry] |}.
Proof.
  intros Hle. apply deque_at_None in Hle.
  unfold setEntry, entryPathFor. rewrite Hle. done.
Qed.

Lemma setEntry_out_of_range_escapes_witness :
  setEntry {| this_entry := 0; entryIndex := [0]; data := 0 |} 5 =
    Threw out_of_range {| this_entry := 5; entryIndex := [0]; data := 0 |}.
Proof.
  apply (setEntry_out_of_range_escapes {| this_entry := 0; entryIndex := [0]; data := 0 |} 5).
  simpl. lia.
Defined.

Lemma makeNewEntry_returns (c : Clipboard) (front : N) (rest : list N) :
  entryIndex c = front :: rest ->
  this_entry c < N.of_nat (length (entryIndex c)) ->
  exists n,
    makeNewEntry c =
      Returned {| this_entry := this_entry c;
                  entryIndex := ulong_add front 1 :: entryIndex c;
                  data := n |}.
Proof.
  intros Hidx Hpos. unfold makeNewEntry. rewrite Hidx. rewrite Hidx in Hpos.
  destruct (deque_at_is_Some (ulong_add front 1 :: front :: rest) (this_entry c)) as [n Hn].
  { simpl in *. lia. }
  rewrite Hn. by exists n.
Qed.

(** C9, as the code has it: from a clipboard whose current position lies
    in its index, [k] calls in a row all return; the front is then
    [(F + k) mod 2^64], which is [F + k] as long as that fits an
    [unsigned long]; the index has grown by [k] elements and the old index
    is its tail, unchanged. *)
Theorem makeNewEntry_times_front (k : nat) (c : Clipboard) (front : N) (rest : list N) :
  entryIndex c = front :: rest ->
  front <= ULONG_MAX ->
  this_entry c < N.of_nat (length (entryIndex c)) ->
  exists c',
    makeNewEntry_times k c = Returned c' /\
    head (entryIndex c') = Some ((front + N.of_nat k) mod 2 ^ 64) /\
    drop k (entryIndex c') = entryIndex c /\
    length (entryIndex c') = (k + length (entryIndex c))%nat /\
    this_entry c' = this_entry c.
Proof.
  revert c front rest. induction k as [|k IH]; intros c front rest Hidx Hmax Hpos.
  - exists c. simpl. rewrite Hidx. repeat split; try done.
    simpl. f_equal. rewrite N.add_0_r, N.mod_small; [done|].
    unfold ULONG_MAX in Hmax. lia.
  - destruct (makeNewEntry_returns c front rest Hidx Hpos) as [n Hn].
    simpl. rewrite Hn.
    edestruct (IH {| this_entry := this_entry c;
                     entryIndex := ulong_add front 1 :: entryIndex c;
                     data := n |} (ulong_add front 1) (entryIndex c))
      as (c' & Hrun & Hhead & Hdrop & Hlen & Hthis).
    + done.
    + unfold ulong_add, ULONG_MAX.
      pose proof (N.mod_upper_bound (front + 1) (2 ^ 64)). lia.
    + simpl. lia.
    + exists c'. simpl in *. split; [done|]. split; [|split; [|split]].
      * rewrite Hhead. f_equal. unfold ulong_add.
        rewrite N.Div0.add_mod_idemp_l. f_equal. lia.
      * destruct (entryIndex c') as [|x l'] eqn:Hc'; [simpl in Hlen; lia|].
        simpl. destruct k as [|k'].
        -- simpl in Hdrop. by inversion Hdrop.
        -- simpl in Hdrop. apply (f_equal (drop 1)) in Hdrop.
           rewrite drop_drop in Hdrop. simpl in Hdrop.
           by replace (S k') with (k' + 1)%nat by lia.
      * lia.
      * done.
Qed.

Lemma makeNewEntry_times_front_witness :
  exists c',
    makeNewEntry_times 2 {| this_entry := 0; entryIndex := [4; 1]; data := 4 |} = Returned c' /\
    head (entryIndex c') = Some ((4 + N.of_nat 2) mod 2 ^ 64) /\
    drop 2 (entryIndex c') = [4; 1] /\
    length (entryIndex c') = (2 + 2)%nat /\
    this_entry c' = 0.
Proof.
  apply (makeNewEntry_times_front 2
           {| this_entry := 0; entryIndex := [4; 1]; data := 4 |} 4 [1]).
  - reflexivity.
  - vm_compute. discriminate.
  - simpl. lia.
Defined.

(** C9 as stated fails where the addition wraps: with the largest
    [unsigned long] at the front, the new front is 0, not [F + 1]. *)
Lemma makeNewEntry_front_wraps :
  makeNewEntry {| this_entry := 0; entryIndex := [ULONG_MAX]; data := ULONG_MAX |} =
    Returned {| this_entry := 0; entryIndex := [0; ULONG_MAX]; data := 0 |} /\
  head [0; ULONG_MAX] <> Some (ULONG_MAX + 1).
Proof. split; [reflexivity|]. vm_compute. discriminate. Qed.

(** The directory name that puts that ordinal at the front is accepted. *)
Example generatedEntryIndex_largest :
  generatedEntryIndex ["18446744073709551615"]%string = [ULONG_MAX].
Proof. reflexivity. Qed.

(** ** The lock manager *)

Lemma isLocked_nonempty (content : string) :
  content <> EmptyString -> isLocked (Some content) = true.
Proof.
  intros Hne. simpl. apply negb_true_iff. by apply String.eqb_neq.
Qed.

(** A content with no digit after the white space and the sign is not
    converted. *)
Lemma stoi_no_digits (content : string) :
  snd (sign_and_digits content) = [] -> stoi content = inl invalid_argument.
Proof.
  unfold stoi. destruct (sign_and_digits content) as [negative ds]. simpl.
  by intros ->.
Qed.

(** C4, as the code has it: when the lock file holds text that
    [std::stoi] does not convert, the exception leaves [getLock]: the lock
    is not taken as stale, no PID is written and the lock file stays as it
    was, whatever the other processes do. *)
Theorem getLock_unparsable_throws
  (P : ProcessTable) (polls : list Poll) (content : string) (e : exception) :
  content <> EmptyString ->
  stoi content = inl e ->
  getLock P polls (Some content) = Done (Threw e (Some content)).
Proof.
  intros Hne Hconv. unfold getLock.
  rewrite (isLocked_nonempty content Hne). simpl. by rewrite Hconv.
Qed.

Lemma getLock_unparsable_throws_witness :
  getLock {| thisPID := 42; getpgrp := 7; getpgid := fun _ => 8%Z |}
    [{| kill_fails := true; still_locked := true |}] (Some "abc"%string) =
  Done (Threw invalid_argument (Some "abc"%string)).
Proof.
  apply (getLock_unparsable_throws _ _ "abc"%string invalid_argument).
  - discriminate.
  - reflexivity.
Defined.

(** C4 as stated fails: with the text [abc] in the lock file and a holder
    that no signal reaches, [getLock] ends in [std::invalid_argument] and
    the lock file does not hold the PID of the caller. *)
Lemma getLock_malformed_not_acquired :
  let P := {| thisPID := 42; getpgrp := 7; getpgid := fun _ => 8%Z |} in
  let polls := [{| kill_fails := true; still_locked := true |}] in
  getLock P polls (Some "abc"%string) = Done (Threw invalid_argument (Some "abc"%string)) /\
  getLock P polls (Some "abc"%string) <> Done (Returned (Some (pretty (thisPID P)))).
Proof. split; [reflexivity|]. vm_compute. discriminate. Qed.

(** Digits in front of other text are converted: such a lock names a
    holder, which is waited for as long as it is alive. *)
Example getLock_prefix_is_a_holder :
  getLock {| thisPID := 42; getpgrp := 7; getpgid := fun _ => 8%Z |}
    [{| kill_fails := false; still_locked := true |}] (Some "12abc"%string) = StillPolling.
Proof. reflexivity. Qed.

(** A lock whose holder is gone is taken at the first turn of the loop. *)
Lemma getLock_stale_holder
  (P : ProcessTable) (polls : list Poll) (p : Poll) (content : string) (pid : Z) :
  content <> EmptyString ->
  stoi content = inr pid ->
  getpgrp P <> getpgid P pid ->
  kill_fails p = true ->
  getLock P (p :: polls) (Some content) = Done (Returned (Some (pretty (thisPID P)))).
Proof.
  intros Hne Hconv Hgrp Hkill. unfold getLock.
  rewrite (isLocked_nonempty content Hne). simpl. rewrite Hconv.
  destruct (decide (getpgrp P = getpgid P pid)) as [Heq|_]; [done|].
  by rewrite Hkill.
Qed.

(** ** The content filter *)

Section Filter.
Context `{Engine : RegexEngine} `{Names : Constants}.

Lemma raw_writeToFile_raw (f : EntryFiles) (content : string) :
  raw (writeToFile_raw f content) = Some content.
Proof. unfold raw, writeToFile_raw. simpl. apply lookup_insert_eq. Qed.

Lemma holdsRaw_iff (f : EntryFiles) :
  holdsRawDataInCurrentEntry f = true <->
  exists content, raw f = Some content /\ content <> EmptyString.
Proof.
  unfold holdsRawDataInCurrentEntry, exists_nonempty.
  destruct (raw f) as [content|]; split.
  - intros Hne. exists content. split; [done|].
    apply negb_true_iff in Hne. by apply String.eqb_neq.
  - intros (c & [= <-] & Hne). apply negb_true_iff. by apply String.eqb_neq.
  - done.
  - by intros (c & Hc & _).
Qed.

Lemma match_secrets_listed (f : EntryFiles) (content : string) (secrets : list string) :
  match_secrets f content secrets =
    if listed content secrets then writeToFile_raw f EmptyString else f.
Proof.
  unfold listed. induction secrets as [|secret rest IH]; cbn [match_secrets].
  - rewrite bool_decide_eq_false_2; [done|]. apply not_elem_of_nil.
  - destruct (String.eqb (hex_of_bytes (SHA512 content)) secret) eqn:Heq.
    + apply String.eqb_eq in Heq.
      rewrite bool_decide_eq_true_2; [done|].
      rewrite Heq. apply elem_of_cons. by left.
    + apply String.eqb_neq in Heq. rewrite IH.
      destruct (decide (hex_of_bytes (SHA512 content) ∈ rest)) as [Hin|Hin].
      * rewrite (bool_decide_eq_true_2 _ Hin).
        rewrite bool_decide_eq_true_2; [done|]. apply elem_of_cons. by right.
      * rewrite (bool_decide_eq_false_2 _ Hin).
        rewrite bool_decide_eq_false_2; [done|].
        intros Hin'. apply elem_of_cons in Hin' as [?|?]; done.
Qed.

Lemma applyIgnoreSecrets_unfold (f : EntryFiles) :
  applyIgnoreSecrets f =
    if holdsIgnoreSecrets f && holdsRawDataInCurrentEntry f
       && listed (default EmptyString (raw f)) (ignoreSecrets f)
    then writeToFile_raw f EmptyString
    else f.
Proof.
  unfold applyIgnoreSecrets.
  destruct (holdsIgnoreSecrets f); [|done].
  destruct (holdsRawDataInCurrentEntry f); simpl; [|done].
  apply match_secrets_listed.
Qed.

Lemma applyIgnoreRegexes_without_patterns (f : EntryFiles) :
  holdsIgnoreRegexes f = false -> applyIgnoreRegexes f = Returned f.
Proof. unfold applyIgnoreRegexes. by intros ->. Qed.

(** The first block does not touch the metadata files. *)
Lemma applyIgnoreRegexes_metadata (f f1 : EntryFiles) :
  applyIgnoreRegexes f = Returned f1 ->
  ignore f1 = ignore f /\ ignore_secret f1 = ignore_secret f.
Proof.
  unfold applyIgnoreRegexes.
  destruct (holdsIgnoreRegexes f); [|by intros [= <-]].
  destruct (ignoreRegexes f) as [regexes|]; [|done].
  destruct (holdsRawDataInCurrentEntry f); by intros [= <-].
Qed.

(** C5, as the code has it: with a non-empty [ignore_secret] file, the
    secret pass of [applyIgnoreRules] does not work on the raw content of
    the entry but on the content the regex pass has left, which is that of
    the entry only when the clipboard holds no ignore regexes.  If the
    entry holds raw data after the regex pass and the lower-case
    hexadecimal SHA-512 digest of that content is one of the listed lines,
    the raw file is written empty; if the digest is not listed the files
    are left as the regex pass left them; and if no raw data is held then,
    the secret pass does nothing. *)
Theorem applyIgnoreRules_secret_scrubbing (f f1 : EntryFiles) :
  holdsIgnoreSecrets f = true ->
  applyIgnoreRegexes f = Returned f1 ->
  (f1 = f \/ holdsIgnoreRegexes f = true) /\
  exists f',
    applyIgnoreRules f = Returned f' /\
    if holdsRawDataInCurrentEntry f1 then
      if listed (default EmptyString (raw f1)) (fileLines (default EmptyString (ignore_secret f)))
      then f' = writeToFile_raw f1 EmptyString /\ raw f' = Some EmptyString
      else f' = f1
    else f' = f1.
Proof.
  intros Hsec Hfirst. split.
  - destruct (holdsIgnoreRegexes f) eqn:Hre; [by right|left].
    rewrite (applyIgnoreRegexes_without_patterns f Hre) in Hfirst. by inversion Hfirst.
  - destruct (applyIgnoreRegexes_metadata f f1 Hfirst) as [_ Hmeta].
    assert (holdsIgnoreSecrets f1 = true) as Hsec1.
    { unfold holdsIgnoreSecrets in *. by rewrite Hmeta. }
    exists (applyIgnoreSecrets f1). split.
    { unfold applyIgnoreRules. by rewrite Hfirst. }
    rewrite applyIgnoreSecrets_unfold. rewrite Hsec1. simpl.
    unfold ignoreSecrets. rewrite Hsec1, Hmeta.
    destruct (holdsRawDataInCurrentEntry f1); simpl; [|done].
    destruct (listed _ _); [|done].
    split; [done|]. apply raw_writeToFile_raw.
Qed.

(** C6, as the code has it: with a non-empty [ignore_regex] file whose
    lines are all patterns and an entry that holds raw data, the regex
    pass writes back the content with the matches of each pattern removed,
    pattern after pattern in file order.  That is the raw content after
    [applyIgnoreRules] unless the secret pass, which runs next on the
    scrubbed content, finds its digest listed and writes the file empty. *)
Theorem applyIgnoreRules_regex_scrubbing
  (f : EntryFiles) (regexes : list regex) (content : string) :
  holdsIgnoreRegexes f = true ->
  mapM regex_compile (fileLines (default EmptyString (ignore f))) = Some regexes ->
  raw f = Some content ->
  content <> EmptyString ->
  exists f1 f',
    applyIgnoreRegexes f = Returned f1 /\
    raw f1 = Some (foldl regex_replace content regexes) /\
    applyIgnoreRules f = Returned f' /\
    raw f' =
      Some (if holdsIgnoreSecrets f
               && negb (String.eqb (foldl regex_replace content regexes) EmptyString)
               && listed (foldl regex_replace content regexes)
                         (fileLines (default EmptyString (ignore_secret f)))
            then EmptyString
            else foldl regex_replace content regexes).
Proof.
  intros Hre Hcompile Hraw Hne.
  assert (holdsRawDataInCurrentEntry f = true) as Hholds.
  { apply holdsRaw_iff. by exists content. }
  assert (applyIgnoreRegexes f = Returned (writeToFile_raw f (scrub content regexes)))
    as Hfirst.
  { unfold applyIgnoreRegexes, ignoreRegexes. rewrite Hre, Hcompile, Hholds.
    by rewrite Hraw. }
  exists (writeToFile_raw f (scrub content regexes)),
         (applyIgnoreSecrets (writeToFile_raw f (scrub content regexes))).
  split; [done|]. split; [apply raw_writeToFile_raw|].
  split; [unfold applyIgnoreRules; by rewrite Hfirst|].
  rewrite applyIgnoreSecrets_unfold.
  unfold holdsRawDataInCurrentEntry, ignoreSecrets.
  rewrite raw_writeToFile_raw. simpl.
  replace (holdsIgnoreSecrets (writeToFile_raw f (scrub content regexes)))
    with (holdsIgnoreSecrets f) by reflexivity.
  unfold scrub.
  destruct (holdsIgnoreSecrets f); simpl; [|apply raw_writeToFile_raw].
  destruct (negb (String.eqb (foldl regex_replace content regexes) EmptyString));
    simpl; [|apply raw_writeToFile_raw].
  destruct (listed _ _); apply raw_writeToFile_raw.
Qed.

End Filter.

(** The digest computed here is the published one. *)
Example SHA512_abc :
  hex_of_bytes (SHA512 "abc") =
    ("ddaf35a193617abacc417349ae20413112e6fa4e89a97ea20a9eeee64b55d39a"
     ++ "2192992a274fc1a836ba3c23a3feebbd454d4423643ce80e2a9ac94fa54ca49f")%string.
Proof. vm_compute. reflexivity. Qed.

Example SHA512_password : hex_of_bytes (SHA512 "password") = password_digest.
Proof. vm_compute. reflexivity. Qed.

Lemma applyIgnoreRules_secret_scrubbing_witness :
  exists f',
    @applyIgnoreRules literal_engine example_constants files_password = Returned f' /\
    @raw example_constants f' = Some EmptyString.
Proof.
  destruct (@applyIgnoreRules_secret_scrubbing literal_engine example_constants
              files_password files_password eq_refl eq_refl) as [_ [f' [Hrun Hcase]]].
  exists f'. split; [exact Hrun|].
  vm_compute in Hcase. destruct Hcase as [-> _]. vm_compute. reflexivity.
Defined.

Lemma applyIgnoreRules_regex_scrubbing_witness :
  exists f1,
    @applyIgnoreRegexes literal_engine example_constants files_hello = Returned f1 /\
    @raw example_constants f1 = Some "hello 2345 world "%string.
Proof.
  destruct (@applyIgnoreRules_regex_scrubbing literal_engine example_constants
              files_hello ["1"%string] "hello 12345 world 1"%string
              eq_refl eq_refl ltac:(vm_compute; reflexivity) ltac:(discriminate))
    as [f1 [f' [Hfirst [Hraw _]]]].
  exists f1. split; [exact Hfirst|]. rewrite Hraw. vm_compute. reflexivity.
Defined.

(** C5 as stated fails: the raw content is [password1] and its digest is
    the line of [ignore_secret], yet the raw file is not written empty:
    the pattern [1] of the regex pass turns the content into [password]
    first, whose digest is not listed, and [password] is what the raw file
    holds after [applyIgnoreRules], neither empty nor as it was. *)
Lemma applyIgnoreRules_secret_after_regex :
  @raw example_constants files_password1_listed = Some "password1"%string /\
  @holdsRawDataInCurrentEntry example_constants files_password1_listed = true /\
  holdsIgnoreSecrets files_password1_listed = true /\
  hex_of_bytes (SHA512 "password1") = password1_digest /\
  listed "password1"
    (fileLines (default EmptyString (ignore_secret files_password1_listed))) = true /\
  exists f',
    @applyIgnoreRules literal_engine example_constants files_password1_listed =
      Returned f' /\
    @raw example_constants f' = Some "password"%string /\
    @raw example_constants f' <> Some EmptyString /\
    @raw example_constants f' <> @raw example_constants files_password1_listed.
Proof.
  repeat split; try (vm_compute; reflexivity).
  eexists. split; [vm_compute; reflexivity|].
  split; [vm_compute; reflexivity|]. split; vm_compute; discriminate.
Qed.

(** C6 as stated fails: the raw content [password1] scrubbed by the
    pattern [1] is [password], but the digest of [password] is listed in
    [ignore_secret], so after [applyIgnoreRules] the raw file is empty. *)
Lemma applyIgnoreRules_regex_then_secret :
  @holdsRawDataInCurrentEntry example_constants files_password1 = true /\
  @ignoreRegexes literal_engine files_password1 = Some ["1"%string] /\
  @regex_replace literal_engine "password1"%string "1"%string = "password"%string /\
  exists f',
    @applyIgnoreRules literal_engine example_constants files_password1 = Returned f' /\
    @raw example_constants f' = Some EmptyString /\
    @raw example_constants f' <>
      Some (foldl (@regex_replace literal_engine) "password1"%string ["1"%string]).
Proof.
  repeat split; try (vm_compute; reflexivity).
  eexists. split; [vm_compute; reflexivity|].
  split; [vm_compute; reflexivity|]. vm_compute. discriminate.
Qed.

(** ** The retention engine: eviction *)

Lemma ulong_sub_exact (a b : N) : b <= a -> a < 2 ^ 64 -> ulong_sub a b = a - b.
Proof.
  intros Hle Hlt. unfold ulong_sub.
  rewrite (N.mod_small b) by lia.
  replace (a + 2 ^ 64 - b) with ((a - b) + 1 * 2 ^ 64) by lia.
  rewrite N.Div0.mod_add. apply N.mod_small. lia.
Qed.

(** The call the loops make on a deque that is not empty is the call for
    its back element; on the empty deque the position wraps and the call
    ends the process. *)
Lemma entryPathFor_back (index : list N) (k : Console) :
  N.of_nat (length index) < 2 ^ 64 ->
  entryPathFor index (ulong_sub (N.of_nat (length index)) 1) k =
    match reverse index with
    | [] => no_oldest_entry k
    | oldest :: _ => Returned oldest
    end.
Proof.
  intros Hlen. destruct (reverse index) as [|oldest rest] eqn:Hrev.
  - assert (index = []) as ->.
    { rewrite <- (reverse_involutive index), Hrev. done. }
    reflexivity.
  - assert (index = reverse rest ++ [oldest]) as ->.
    { rewrite <- (reverse_involutive index), Hrev. by rewrite reverse_cons. }
    rewrite length_app in *. simpl in *.
    rewrite ulong_sub_exact by lia.
    unfold entryPathFor, deque_at.
    replace (N.to_nat (N.of_nat (length (reverse rest) + 1) - 1))
      with (length (reverse rest) + 0)%nat by lia.
    by rewrite lookup_app_r, Nat.add_comm, Nat.add_sub by lia.
Qed.

Lemma totalDirectorySize_remove_all (st : Store) (n : N) :
  totalDirectorySize_root (remove_all st n) + totalDirectorySize_entry st n =
  totalDirectorySize_root st.
Proof.
  unfold totalDirectorySize_root, totalDirectorySize_entry, remove_all. simpl.
  destruct (entries st !! n) as [e|] eqn:Hn.
  - rewrite (map_fold_delete_L _ 0 n e (entries st)); [lia| |done].
    intros. lia.
  - rewrite delete_id by done. lia.
Qed.

Lemma totalDirectorySize_remove_all_le (st : Store) (n : N) :
  totalDirectorySize_root (remove_all st n) <= totalDirectorySize_root st.
Proof. pose proof (totalDirectorySize_remove_all st n). lia. Qed.

Lemma totalDirectorySize_foldl_le (st : Store) (l : list N) :
  totalDirectorySize_root (foldl remove_all st l) <= totalDirectorySize_root st.
Proof.
  revert st. induction l as [|n l IH]; intros st; simpl; [lia|].
  etrans; [apply IH|]. apply totalDirectorySize_remove_all_le.
Qed.

Lemma popped_refl (l : list N) (st : Store) : popped l st l st.
Proof. exists 0%nat. by rewrite drop_0, take_0. Qed.

Lemma popped_step (oldest : N) (l l' : list N) (st st' : Store) :
  popped l (remove_all st oldest) l' st' -> popped (oldest :: l) st l' st'.
Proof. intros (j & -> & ->). by exists (S j). Qed.

Lemma popped_trans (l1 l2 l3 : list N) (st1 st2 st3 : Store) :
  popped l1 st1 l2 st2 -> popped l2 st2 l3 st3 -> popped l1 st1 l3 st3.
Proof.
  intros (j1 & -> & ->) (j2 & -> & ->). exists (j1 + j2)%nat. split.
  - by rewrite drop_drop.
  - by rewrite <- take_take_drop, foldl_app.
Qed.

Lemma popped_total_le (l l' : list N) (st st' : Store) :
  popped l st l' st' -> totalDirectorySize_root st' <= totalDirectorySize_root st.
Proof. intros (j & _ & ->). apply totalDirectorySize_foldl_le. Qed.

(** A deque popped at its back keeps its front part, and the directories
    removed are those of the back part, oldest first. *)
Lemma popped_reverse (index : list N) (st : Store) (l' : list N) (st' : Store) :
  popped (reverse index) st l' st' ->
  exists n : nat,
    (n <= length index)%nat /\
    reverse l' = take n index /\
    st' = foldl remove_all st (reverse (drop n index)).
Proof.
  intros (j & -> & ->).
  exists (length index - j)%nat. split; [lia|]. split.
  - by rewrite drop_reverse, reverse_involutive.
  - by rewrite take_reverse.
Qed.

Lemma evict_bytes_pops (maximumBytes size : N) (l : list N) (st : Store) (k : Console) :
  pops_from_back l st k (evict_bytes maximumBytes size l st k).
Proof.
  revert size st. induction l as [|oldest rest IH]; intros size st; simpl.
  - destruct (decide (maximumBytes < size)); simpl; [done|apply popped_refl].
  - destruct (decide (maximumBytes < size)); [|apply popped_refl].
    specialize (IH (ulong_sub size (totalDirectorySize_entry st oldest))
                   (remove_all st oldest)).
    unfold pops_from_back in *.
    destruct (evict_bytes _ _ rest _ k) as [[l' st']| | |]; try done.
    by apply popped_step.
Qed.

Lemma evict_seconds_pops (maximumSeconds : N) (now : Z) (l : list N) (st : Store)
  (k : Console) :
  pops_from_back l st k (evict_seconds maximumSeconds now l st k).
Proof.
  revert st. induction l as [|oldest rest IH]; intros st; simpl; [done|].
  destruct (decide _); [|apply popped_refl].
  specialize (IH (remove_all st oldest)). unfold pops_from_back in *.
  destruct (evict_seconds _ _ rest _ k) as [[l' st']| | |]; try done.
  by apply popped_step.
Qed.

Lemma evict_entries_returns (maximumEntries : N) (l : list N) (st : Store) (k : Console) :
  evict_entries maximumEntries l st k =
    Returned (drop (length l - N.to_nat maximumEntries) l,
              foldl remove_all st (take (length l - N.to_nat maximumEntries) l)).
Proof.
  revert st. induction l as [|oldest rest IH]; intros st.
  - simpl. destruct (decide _); [lia|done].
  - cbn [evict_entries]. destruct (decide _) as [Hlt|Hge].
    + rewrite IH. simpl length in *.
      replace (S (length rest) - N.to_nat maximumEntries)%nat
        with (S (length rest - N.to_nat maximumEntries)) by lia.
      done.
    + simpl length in *.
      replace (S (length rest) - N.to_nat maximumEntries)%nat with 0%nat by lia.
      done.
Qed.

(** The size loop on a store whose size fits a [size_t]: the running
    total is the recursive size of [root] at every turn, so the loop
    returns at the first turn where that size is within the budget, and
    ends the process when every element is popped and the size is still
    above it. *)
Lemma evict_bytes_within (maximumBytes : N) (l : list N) (st : Store) (k : Console) :
  totalDirectorySize_root st < 2 ^ 64 ->
  match evict_bytes maximumBytes (totalDirectorySize_root st) l st k with
  | Returned (l', st') =>
      exists j : nat,
        (j <= length l)%nat /\
        l' = drop j l /\
        st' = foldl remove_all st (take j l) /\
        totalDirectorySize_root st' <= maximumBytes /\
        forall i : nat,
          (i < j)%nat -> maximumBytes < totalDirectorySize_root (foldl remove_all st (take i l))
  | Exited status k' =>
      status = EXIT_FAILURE /\
      k' = reportNoSuchEntry (ulong_sub 0 1) k /\
      maximumBytes < totalDirectorySize_root (foldl remove_all st l)
  | _ => False
  end.
Proof.
  revert st. induction l as [|oldest rest IH]; intros st Hfit; simpl.
  - destruct (decide _) as [Hover|Hin]; simpl; [done|].
    exists 0%nat. split; [lia|]. repeat split; [lia|]. intros i Hi. lia.
  - destruct (decide _) as [Hover|Hin].
    + pose proof (totalDirectorySize_remove_all st oldest) as Hsum.
      rewrite ulong_sub_exact by lia.
      replace (totalDirectorySize_root st - totalDirectorySize_entry st oldest)
        with (totalDirectorySize_root (remove_all st oldest)) by lia.
      specialize (IH (remove_all st oldest)).
      destruct (evict_bytes _ _ rest _ k) as [[l' st']| | |];
        try (apply IH; lia).
      destruct IH as (j & Hj & -> & -> & Hle & Hmin); [lia|].
      exists (S j). split; [simpl; lia|]. repeat split; [done|].
      intros [|i] Hi; simpl; [done|]. apply Hmin. lia.
    + exists 0%nat. split; [lia|]. repeat split; [lia|]. intros i Hi. lia.
Qed.

Lemma size_block_pops (b : Budgets) (l : list N) (st : Store) (k : Console) :
  pops_from_back l st k (size_block b l st k).
Proof.
  unfold size_block. destruct (decide _); [apply evict_bytes_pops|apply popped_refl].
Qed.

Lemma age_block_pops (b : Budgets) (now : Z) (l : list N) (st : Store) (k : Console) :
  pops_from_back l st k (age_block b now l st k).
Proof.
  unfold age_block. destruct (decide _); [apply evict_seconds_pops|apply popped_refl].
Qed.

(** The count block always returns; with a budget it leaves the deque
    with the budgeted number of elements, or whole when it is shorter. *)
Lemma count_block_returns (b : Budgets) (l : list N) (st : Store) (k : Console) :
  exists d : nat,
    count_block b l st k = Returned (drop d l, foldl remove_all st (take d l)) /\
    (d = 0%nat \/ 0 < maximumEntries b) /\
    (d = (length l - N.to_nat (maximumEntries b))%nat \/ maximumEntries b = 0).
Proof.
  unfold count_block. destruct (decide (0 < maximumEntries b)) as [Hpos|Hzero].
  - exists (length l - N.to_nat (maximumEntries b))%nat.
    split; [|split; [by right|by left]].
    destruct (decide _) as [Hshort|Hlong].
    + replace (length l - N.to_nat (maximumEntries b))%nat with 0%nat by lia.
      by rewrite drop_0, take_0.
    + apply evict_entries_returns.
  - exists 0%nat. rewrite drop_0, take_0. split; [done|]. split; [by left|right; lia].
Qed.

(** The blocks run one after the other; only the size block and the age
    block can end the process. *)
Lemma evict_blocks (b : Budgets) (now : Z) (index : list N) (st : Store) (k : Console) :
  match evict b now index st k with
  | Returned (index', st') =>
      exists l1 st1 l2 st2,
        size_block b (reverse index) st k = Returned (l1, st1) /\
        age_block b now l1 st1 k = Returned (l2, st2) /\
        count_block b l2 st2 k = Returned (reverse index', st')
  | Exited status k' =>
      status = EXIT_FAILURE /\
      k' = reportNoSuchEntry (ulong_sub 0 1) k /\
      (size_block b (reverse index) st k = Exited status k' \/
       exists l1 st1,
         size_block b (reverse index) st k = Returned (l1, st1) /\
         age_block b now l1 st1 k = Exited status k')
  | _ => False
  end.
Proof.
  unfold evict.
  pose proof (size_block_pops b (reverse index) st k) as H1.
  destruct (size_block b (reverse index) st k) as [[l1 st1]| |status k'|] eqn:Hsize;
    simpl in *; try done.
  2: { destruct H1 as [-> ->]. repeat split. by left. }
  pose proof (age_block_pops b now l1 st1 k) as H2.
  destruct (age_block b now l1 st1 k) as [[l2 st2]| |status k'|] eqn:Hage;
    simpl in *; try done.
  2: { destruct H2 as [-> ->]. repeat split. right. by exists l1, st1. }
  destruct (count_block_returns b l2 st2 k) as (d & Hcount & _).
  rewrite Hcount. simpl. exists l1, st1, l2, st2.
  by rewrite reverse_involutive.
Qed.

Lemma size_block_exited (b : Budgets) (l : list N) (st : Store) (k k' : Console)
  (status : Z) :
  size_block b l st k = Exited status k' -> 0 < maximumBytes b.
Proof. unfold size_block. by destruct (decide _). Qed.

Lemma age_block_exited (b : Budgets) (now : Z) (l : list N) (st : Store) (k k' : Console)
  (status : Z) :
  age_block b now l st k = Exited status k' -> 0 < maximumSeconds b.
Proof. unfold age_block. by destruct (decide _). Qed.

Lemma size_block_off (b : Budgets) (l : list N) (st : Store) (k : Console) :
  maximumBytes b = 0 -> size_block b l st k = Returned (l, st).
Proof. intros Hz. unfold size_block. destruct (decide _); [lia|done]. Qed.

Lemma age_block_off (b : Budgets) (now : Z) (l : list N) (st : Store) (k : Console) :
  maximumSeconds b = 0 -> age_block b now l st k = Returned (l, st).
Proof. intros Hz. unfold age_block. destruct (decide _); [lia|done]. Qed.

(** The count budget on parsed settings. *)
Lemma evict_count_budget (b : Budgets) (now : Z) (index : list N) (st : Store)
  (k : Console) :
  0 < maximumEntries b ->
  match evict b now index st k with
  | Returned (index', st') =>
      N.of_nat (length index') <= maximumEntries b /\
      (exists n : nat,
         index' = take n index /\
         st' = foldl remove_all st (reverse (drop n index))) /\
      (length index' = Nat.min (N.to_nat (maximumEntries b)) (length index) \/
       0 < maximumBytes b \/ 0 < maximumSeconds b)
  | Exited status k' =>
      status = EXIT_FAILURE /\
      k' = reportNoSuchEntry (ulong_sub 0 1) k /\
      (0 < maximumBytes b \/ 0 < maximumSeconds b)
  | _ => False
  end.
Proof.
  intros Hpos. pose proof (evict_blocks b now index st k) as Hblocks.
  destruct (evict b now index st k) as [[index' st']| |status k'|]; try done.
  - destruct Hblocks as (l1 & st1 & l2 & st2 & Hsize & Hage & Hcount).
    destruct (count_block_returns b l2 st2 k) as (d & Hcount' & _ & [Hd|Hd]); [|lia].
    rewrite Hcount in Hcount'. injection Hcount' as Hl3 Hst3.
    assert (length index' = Nat.min (N.to_nat (maximumEntries b)) (length l2)) as Hlen.
    { rewrite <- (length_reverse index'), Hl3, length_drop. lia. }
    pose proof (size_block_pops b (reverse index) st k) as P1. rewrite Hsize in P1.
    pose proof (age_block_pops b now l1 st1 k) as P2. rewrite Hage in P2.
    simpl in P1, P2.
    assert (popped l2 st2 (reverse index') st') as P3.
    { exists d. by rewrite Hl3, Hst3. }
    pose proof (popped_trans _ _ _ _ _ _ (popped_trans _ _ _ _ _ _ P1 P2) P3) as P.
    apply popped_reverse in P as (n & Hn & Hkeep & Hgone).
    rewrite reverse_involutive in Hkeep.
    split; [lia|]. split; [by exists n|].
    destruct (decide (0 < maximumBytes b)); [by right; left|].
    destruct (decide (0 < maximumSeconds b)); [by right; right|].
    left. rewrite size_block_off in Hsize by lia. injection Hsize as <- <-.
    rewrite age_block_off in Hage by lia. injection Hage as <- <-.
    by rewrite Hlen, length_reverse.
  - destruct Hblocks as (-> & -> & [Hsize|(l1 & st1 & _ & Hage)]).
    + repeat split. left. by eapply size_block_exited.
    + repeat split. right. by eapply age_block_exited.
Qed.

(** The size budget on parsed settings. *)
Lemma evict_size_budget (b : Budgets) (now : Z) (index : list N) (st : Store)
  (k : Console) :
  0 < maximumBytes b ->
  totalDirectorySize_root st < 2 ^ 64 ->
  match evict b now index st k with
  | Returned (index', st') =>
      totalDirectorySize_root st' <= maximumBytes b /\
      exists n : nat,
        (n <= length index)%nat /\
        index' = take n index /\
        st' = foldl remove_all st (reverse (drop n index)) /\
        ((forall m : nat,
            (n < m <= length index)%nat ->
            maximumBytes b <
              totalDirectorySize_root (foldl remove_all st (reverse (drop m index)))) \/
         0 < maximumSeconds b \/ 0 < maximumEntries b)
  | Exited status k' =>
      status = EXIT_FAILURE /\
      k' = reportNoSuchEntry (ulong_sub 0 1) k /\
      (maximumBytes b < totalDirectorySize_root (foldl remove_all st (reverse index)) \/
       0 < maximumSeconds b)
  | _ => False
  end.
Proof.
  intros Hpos Hfit. pose proof (evict_blocks b now index st k) as Hblocks.
  pose proof (evict_bytes_within (maximumBytes b) (reverse index) st k Hfit) as Hbytes.
  assert (size_block b (reverse index) st k =
          evict_bytes (maximumBytes b) (totalDirectorySize_root st) (reverse index) st k)
    as Hsize_eq.
  { unfold size_block. destruct (decide _); [done|lia]. }
  destruct (evict b now index st k) as [[index' st']| |status k'|]; try done.
  - destruct Hblocks as (l1 & st1 & l2 & st2 & Hsize & Hage & Hcount).
    rewrite Hsize_eq in Hsize. rewrite Hsize in Hbytes.
    destruct Hbytes as (j & Hj & Hl1 & Hst1 & Hle & Hmin).
    rewrite length_reverse in Hj.
    pose proof (age_block_pops b now l1 st1 k) as P2. rewrite Hage in P2.
    destruct (count_block_returns b l2 st2 k) as (d & Hcount' & Hd & _).
    rewrite Hcount in Hcount'. injection Hcount' as Hl3 Hst3.
    assert (popped l2 st2 (reverse index') st') as P3.
    { exists d. by rewrite Hl3, Hst3. }
    simpl in P2. pose proof (popped_trans _ _ _ _ _ _ P2 P3) as P23.
    split.
    { etrans; [apply (popped_total_le _ _ _ _ P23)|done]. }
    destruct (decide (0 < maximumSeconds b)) as [Hs|Hs].
    { assert (popped (reverse index) st l1 st1) as P1 by (by exists j).
      pose proof (popped_trans _ _ _ _ _ _ P1 P23) as P.
      apply popped_reverse in P as (n & Hn & Hkeep & Hgone).
      rewrite reverse_involutive in Hkeep.
      exists n. repeat split; try done. right. by left. }
    destruct (decide (0 < maximumEntries b)) as [He|He].
    { assert (popped (reverse index) st l1 st1) as P1 by (by exists j).
      pose proof (popped_trans _ _ _ _ _ _ P1 P23) as P.
      apply popped_reverse in P as (n & Hn & Hkeep & Hgone).
      rewrite reverse_involutive in Hkeep.
      exists n. repeat split; try done. right. by right. }
    rewrite age_block_off in Hage by lia. injection Hage as <- <-.
    destruct Hd as [->|Hd]; [|lia]. rewrite drop_0 in Hl3. rewrite take_0 in Hst3.
    simpl in Hst3. subst st'.
    exists (length index - j)%nat. split; [lia|]. split; [|split].
    + rewrite <- (reverse_involutive index'), Hl3, Hl1.
      by rewrite drop_reverse, reverse_involutive.
    + by rewrite Hst1, take_reverse.
    + left. intros m Hm.
      specialize (Hmin (length index - m)%nat). rewrite take_reverse in Hmin.
      replace (length index - (length index - m))%nat with m in Hmin by lia.
      apply Hmin. lia.
  - destruct Hblocks as (-> & -> & [Hsize|(l1 & st1 & _ & Hage)]).
    + rewrite Hsize_eq in Hsize. rewrite Hsize in Hbytes.
      destruct Hbytes as (_ & _ & Hover). repeat split. by left.
    + repeat split. right. by eapply age_block_exited.
Qed.

(** What a run of [fs::remove_all] leaves: the directories removed are
    gone, every other entry directory and all that lies outside the entry
    directories are as they were. *)
Lemma entries_foldl_remove_all (st : Store) (removed : list N) (o : N) :
  other_size (foldl remove_all st removed) = other_size st /\
  entries (foldl remove_all st removed) !! o =
    if bool_decide (o ∈ removed) then None else entries st !! o.
Proof.
  revert st. induction removed as [|r removed IH]; intros st.
  - cbn [foldl]. split; [done|].
    rewrite bool_decide_eq_false_2; [done|]. apply not_elem_of_nil.
  - cbn [foldl]. destruct (IH (remove_all st r)) as [Hother Hlook].
    rewrite Hother, Hlook. split; [done|].
    unfold remove_all. cbn [entries].
    destruct (decide (o ∈ removed)) as [Hin|Hnin].
    + rewrite (bool_decide_eq_true_2 _ Hin).
      rewrite bool_decide_eq_true_2; [done|]. by right.
    + rewrite (bool_decide_eq_false_2 _ Hnin).
      destruct (decide (o = r)) as [->|Hne].
      * rewrite lookup_delete_eq. rewrite bool_decide_eq_true_2; [done|]. by left.
      * rewrite lookup_delete_ne by done.
        rewrite bool_decide_eq_false_2; [done|].
        intros Hin. apply elem_of_cons in Hin as [?|?]; done.
Qed.

Section Retention.
Context {Engine : RegexEngine} {Floats : LongDouble}.

Lemma trimHistoryEntries_parsed (maximumHistorySize : string) (now : Z)
  (c : Clipboard) (st : Store) (k : Console) (b : Budgets) :
  maximumHistorySize <> EmptyString ->
  parseSettings (regexSplit_spaces maximumHistorySize) = b ->
  trimHistoryEntries maximumHistorySize now c st k =
    and_then (evict b now (entryIndex c) st k)
      (fun '(index, st') =>
         Returned ({| this_entry := this_entry c; entryIndex := index; data := data c |},
                   st')).
Proof.
  intros Hne <-. unfold trimHistoryEntries.
  apply String.eqb_neq in Hne. by rewrite Hne.
Qed.

(** C7: for every retention string, of any length, whose settings give
    the count budget [N > 0], when [trimHistoryEntries] returns the index
    has at most [N] elements and is the front part of the index it was;
    the directories of the back part, the oldest entries, have been
    removed one after the other from the oldest on, so that none of them
    exists any more, while every other entry directory and all that lies
    outside the entry directories are as they were; with no other budget
    the call always returns and keeps [min N size] elements.  The process
    can end instead only in the loops of the size and age budgets. *)
Theorem trimHistoryEntries_count_budget (maximumHistorySize : string) (now : Z)
  (c : Clipboard) (st : Store) (k : Console) (b : Budgets) :
  maximumHistorySize <> EmptyString ->
  parseSettings (regexSplit_spaces maximumHistorySize) = b ->
  0 < maximumEntries b ->
  match trimHistoryEntries maximumHistorySize now c st k with
  | Returned (c', st') =>
      N.of_nat (length (entryIndex c')) <= maximumEntries b /\
      (exists n : nat,
         entryIndex c' = take n (entryIndex c) /\
         st' = foldl remove_all st (reverse (drop n (entryIndex c))) /\
         other_size st' = other_size st /\
         forall o : N,
           entries st' !! o =
             if bool_decide (o ∈ drop n (entryIndex c)) then None else entries st !! o) /\
      (length (entryIndex c') =
         Nat.min (N.to_nat (maximumEntries b)) (length (entryIndex c)) \/
       0 < maximumBytes b \/ 0 < maximumSeconds b)
  | Exited status k' =>
      status = EXIT_FAILURE /\
      k' = reportNoSuchEntry (ulong_sub 0 1) k /\
      (0 < maximumBytes b \/ 0 < maximumSeconds b)
  | _ => False
  end.
Proof.
  intros Hne Hparse Hpos.
  rewrite (trimHistoryEntries_parsed _ now c st k b Hne Hparse).
  pose proof (evict_count_budget b now (entryIndex c) st k Hpos) as Hevict.
  destruct (evict b now (entryIndex c) st k) as [[index' st']| | |]; try done.
  cbn [and_then entryIndex].
  destruct Hevict as (Hsize & (n & Hkeep & Hgone) & Hexact).
  split; [done|]. split; [|done].
  exists n. split; [done|]. split; [done|]. subst st'.
  split; [apply entries_foldl_remove_all; exact 0|]. intros o.
  destruct (entries_foldl_remove_all st (reverse (drop n (entryIndex c))) o) as [_ ->].
  destruct (decide (o ∈ drop n (entryIndex c))) as [Hin|Hnin].
  - rewrite !bool_decide_eq_true_2; [done|done|]. by apply elem_of_reverse.
  - rewrite !bool_decide_eq_false_2; [done|done|]. by rewrite elem_of_reverse.
Qed.

(** C1, as the code has it: for a retention string whose settings give
    the size budget [B > 0], on a store whose size fits a [size_t], when
    [trimHistoryEntries] returns the recursive size of [root] is at most
    [B], the index is the front part of the index it was and the
    directories removed are those of the back part; with no other budget
    no more elements are popped than the budget asks for.  The loop does
    not stop at one element: it pops the last one as well, and if the size
    is above [B] even then, [entryPathFor] of the wrapped position ends
    the process. *)
Theorem trimHistoryEntries_size_budget (maximumHistorySize : string) (now : Z)
  (c : Clipboard) (st : Store) (k : Console) (b : Budgets) :
  maximumHistorySize <> EmptyString ->
  parseSettings (regexSplit_spaces maximumHistorySize) = b ->
  0 < maximumBytes b ->
  totalDirectorySize_root st < 2 ^ 64 ->
  match trimHistoryEntries maximumHistorySize now c st k with
  | Returned (c', st') =>
      totalDirectorySize_root st' <= maximumBytes b /\
      exists n : nat,
        (n <= length (entryIndex c))%nat /\
        entryIndex c' = take n (entryIndex c) /\
        st' = foldl remove_all st (reverse (drop n (entryIndex c))) /\
        ((forall m : nat,
            (n < m <= length (entryIndex c))%nat ->
            maximumBytes b <
              totalDirectorySize_root
                (foldl remove_all st (reverse (drop m (entryIndex c))))) \/
         0 < maximumSeconds b \/ 0 < maximumEntries b)
  | Exited status k' =>
      status = EXIT_FAILURE /\
      k' = reportNoSuchEntry (ulong_sub 0 1) k /\
      (maximumBytes b <
         totalDirectorySize_root (foldl remove_all st (reverse (entryIndex c))) \/
       0 < maximumSeconds b)
  | _ => False
  end.
Proof.
  intros Hne Hparse Hpos Hfit.
  rewrite (trimHistoryEntries_parsed _ now c st k b Hne Hparse).
  pose proof (evict_size_budget b now (entryIndex c) st k Hpos Hfit) as Hevict.
  by destruct (evict b now (entryIndex c) st k) as [[index' st']| | |].
Qed.

End Retention.

Lemma trimHistoryEntries_count_budget_witness :
  match @trimHistoryEntries literal_engine no_long_double "2" 0 clip_four store_four console0
  with
  | Returned (c', st') =>
      N.of_nat (length (entryIndex c')) <= 2 /\
      (exists n : nat,
         entryIndex c' = take n [3; 2; 1; 0] /\
         st' = foldl remove_all store_four (reverse (drop n [3; 2; 1; 0])) /\
         other_size st' = other_size store_four /\
         forall o : N,
           entries st' !! o =
             if bool_decide (o ∈ drop n [3; 2; 1; 0]) then None
             else entries store_four !! o) /\
      (length (entryIndex c') = Nat.min (N.to_nat 2) 4 \/ 0 < 0 \/ 0 < 0)
  | Exited status k' =>
      status = EXIT_FAILURE /\
      k' = reportNoSuchEntry (ulong_sub 0 1) console0 /\
      (0 < 0 \/ 0 < 0)
  | _ => False
  end.
Proof.
  apply (@trimHistoryEntries_count_budget literal_engine no_long_double
           "2" 0 clip_four store_four console0
           {| maximumBytes := 0; maximumSeconds := 0; maximumEntries := 2 |}).
  - discriminate.
  - vm_compute. reflexivity.
  - simpl. lia.
Defined.

(** Scenario S5: with the retention string [2], of the index 3, 2, 1, 0
    the two newest stay and the directories of the entries 1 and 0 are
    removed; so it is with the size budget [25b] in front of the count. *)
Example trimHistoryEntries_keeps_two_newest :
  (exists st',
     @trimHistoryEntries literal_engine no_long_double "2" 0 clip_four store_four console0 =
       Returned ({| this_entry := 0; entryIndex := [3; 2]; data := 3 |}, st') /\
     entries st' !! 3 = entries store_four !! 3 /\
     entries st' !! 2 = entries store_four !! 2 /\
     entries st' !! 1 = None /\ entries st' !! 0 = None /\
     totalDirectorySize_root st' = 21) /\
  (exists st',
     @trimHistoryEntries literal_engine no_long_double "25b 2" 0 clip_four store_four
       console0 =
       Returned ({| this_entry := 0; entryIndex := [3; 2]; data := 3 |}, st') /\
     entries st' !! 1 = None /\ entries st' !! 0 = None).
Proof.
  split; eexists; (split; [vm_compute; reflexivity|]); by vm_compute.
Qed.

Lemma trimHistoryEntries_size_budget_witness :
  match @trimHistoryEntries literal_engine no_long_double "25b" 0 clip_four store_four console0
  with
  | Returned (c', st') =>
      totalDirectorySize_root st' <= 25 /\
      exists n : nat,
        (n <= 4)%nat /\
        entryIndex c' = take n [3; 2; 1; 0] /\
        st' = foldl remove_all store_four (reverse (drop n [3; 2; 1; 0])) /\
        ((forall m : nat,
            (n < m <= 4)%nat ->
            25 < totalDirectorySize_root
                   (foldl remove_all store_four (reverse (drop m [3; 2; 1; 0])))) \/
         0 < 0 \/ 0 < 0)
  | Exited status k' =>
      status = EXIT_FAILURE /\
      k' = reportNoSuchEntry (ulong_sub 0 1) console0 /\
      (25 < totalDirectorySize_root (foldl remove_all store_four (reverse [3; 2; 1; 0])) \/
       0 < 0)
  | _ => False
  end.
Proof.
  apply (@trimHistoryEntries_size_budget literal_engine no_long_double
           "25b" 0 clip_four store_four console0
           {| maximumBytes := 25; maximumSeconds := 0; maximumEntries := 0 |}).
  - discriminate.
  - vm_compute. reflexivity.
  - simpl. lia.
  - vm_compute. reflexivity.
Defined.

(** C1 as stated fails: with one entry of 100 bytes in the index and the
    budget [50b], the call returns with an empty index: the last element
    was popped and its directory removed.  With 100 bytes outside the
    entries the index is emptied as well, and the process then exits with
    the message for the position [2^64 - 1]. *)
Lemma trimHistoryEntries_pops_last_entry :
  (exists st',
     @trimHistoryEntries literal_engine no_long_double "50b" 0 clip_single store_single
       console0 =
       Returned ({| this_entry := 0; entryIndex := []; data := 0 |}, st') /\
     entries st' !! 0 = None) /\
  @trimHistoryEntries literal_engine no_long_double "50b" 0 clip_single
    store_heavy_metadata console0 =
    Exited 1 {| clipboard_state_Error := true;
                indicator_running := false;
                stderr := [NoSuchEntryMessage ULONG_MAX] |}.
Proof.
  split.
  - eexists. split; [vm_compute; reflexivity|]. by vm_compute.
  - vm_compute. reflexivity.
Qed.

(** ** The retention engine: settings *)

Lemma substring_skip (n m : nat) (c : ascii) (s : string) :
  substring (S n) m (String c s) = substring n m s.
Proof. by destruct m. Qed.

Lemma substring_last_two (t : string) :
  (2 <= String.length t)%nat ->
  exists c1 c2,
    substring (String.length t - 2) 2 t = String c1 (String c2 EmptyString) /\
    String.get (String.length t - 1) t = Some c2.
Proof.
  induction t as [|a t IH]; [simpl; lia|]. intros Hlen.
  change (String.length (String a t)) with (S (String.length t)) in *.
  destruct (decide (2 <= String.length t)%nat) as [Hlong|Hshort].
  - destruct (IH Hlong) as (c1 & c2 & Hsub & Hget). exists c1, c2.
    replace (S (String.length t) - 2)%nat with (S (String.length t - 2)) by lia.
    replace (S (String.length t) - 1)%nat with (S (String.length t - 1)) by lia.
    by rewrite substring_skip.
  - destruct t as [|c [|c' t']]; simpl in *; try lia.
    by exists a, c.
Qed.

(** The last two characters read for a token that is not empty: the
    second is the last character of the token, and the first is a zero byte
    when the token has no other character. *)
Lemma lastTwoChars_last (t : string) (c2 : ascii) :
  String.get (String.length t - 1) t = Some c2 ->
  exists c1,
    lastTwoChars t = String (tolower c1) (String (tolower c2) EmptyString) /\
    ((String.length t < 2)%nat -> c1 = zero).
Proof.
  intros Hget. unfold lastTwoChars.
  change (before_buffer +:+ t) with (String zero (String zero t)). cbv zeta.
  replace (String.length (String zero (String zero t)) - 2)%nat
    with (String.length t) by (cbn [String.length]; lia).
  destruct (decide (2 <= String.length t)%nat) as [Hlong|Hshort].
  - destruct (substring_last_two t Hlong) as (c1 & c2' & Hsub & Hget').
    rewrite Hget in Hget'. injection Hget' as <-.
    exists c1. split; [|lia].
    replace (String.length t) with (S (S (String.length t - 2))) at 1 by lia.
    by rewrite !substring_skip, Hsub.
  - destruct t as [|c [|c' t']]; cbn [String.length] in *; [done| |lia].
    injection Hget as <-. by exists zero.
Qed.

(** An empty token is read as two zero bytes. *)
Lemma lastTwoChars_empty : lastTwoChars EmptyString = before_buffer.
Proof. reflexivity. Qed.

Lemma unit_letter_false (c : ascii) :
  unit_letter c = false ->
  Ascii.eqb c "b" = false /\ Ascii.eqb c "y" = false /\ Ascii.eqb c "m" = false /\
  Ascii.eqb c "w" = false /\ Ascii.eqb c "d" = false /\ Ascii.eqb c "h" = false /\
  Ascii.eqb c "s" = false.
Proof.
  unfold unit_letter. simpl. intros H.
  repeat (apply orb_false_iff in H as [? H]). by repeat split.
Qed.

Lemma ascii_eqb_by_code (c x : ascii) :
  N_of_ascii c <> N_of_ascii x -> Ascii.eqb c x = false.
Proof. intros Hne. apply Ascii.eqb_neq. by intros ->. Qed.

Lemma isdigit_code (c : ascii) : isdigit c = true -> 48 <= N_of_ascii c <= 57.
Proof.
  unfold isdigit, digit. intros H. apply bool_decide_eq_true_1 in H.
  destruct (decide _) as [Hr|_]; [done|]. by destruct H.
Qed.

Lemma isdigit_not_a_unit (c : ascii) :
  isdigit c = true -> unit_letter (tolower c) = false.
Proof.
  intros H. apply isdigit_code in H.
  assert (tolower c = c) as ->.
  { unfold tolower. destruct (decide _); [lia|done]. }
  unfold unit_letter. simpl.
  rewrite !ascii_eqb_by_code; [done|..]; simpl; lia.
Qed.

Lemma all_chars_get (p : ascii -> bool) (t : string) (i : nat) (c : ascii) :
  all_chars p t = true -> String.get i t = Some c -> p c = true.
Proof.
  revert i. induction t as [|a t IH]; intros i Hall Hget; simpl in *; [done|].
  apply andb_true_iff in Hall as [Ha Ht].
  destruct i as [|i]; [by injection Hget as <-|by eapply IH].
Qed.

Lemma last_char_is_Some (t : string) :
  t <> EmptyString -> is_Some (String.get (String.length t - 1) t).
Proof.
  induction t as [|a t IH]; [done|]. intros _.
  destruct t as [|a' t']; [by eexists|].
  destruct IH as [c Hc]; [done|]. exists c.
  cbn [String.length] in *.
  replace (S (S (String.length t')) - 1)%nat with (S (S (String.length t') - 1)) by lia.
  exact Hc.
Qed.

(** [std::stoul] on a token that starts with a digit: the leading digits
    are converted, or [std::out_of_range] is thrown when their value does
    not fit. *)
Lemma stoul_leading_digit (c : ascii) (r : string) :
  isdigit c = true ->
  stoul (String c r) =
    if decide (decimal_value (leading_digits (String c r)) <= ULONG_MAX)
    then inr (decimal_value (leading_digits (String c r)))
    else inl out_of_range.
Proof.
  intros Hc. pose proof (isdigit_code c Hc) as Hcode.
  unfold stoul, sign_and_digits. cbn [skip_spaces].
  assert (isspace c = false) as ->.
  { unfold isspace. apply bool_decide_eq_false_2. lia. }
  rewrite !(ascii_eqb_by_code c) by (simpl; lia).
  cbn [leading_digits].
  unfold isdigit in Hc. apply bool_decide_eq_true_1 in Hc as [d Hd]. rewrite Hd.
  done.
Qed.

Section Settings.
Context {Floats : LongDouble}.

(** A token whose last character is none of the unit letters is converted
    by [std::stoul] for the count budget; when the conversion throws the
    budgets stay as they were. *)
Lemma parseSetting_without_suffix (b : Budgets) (t : string) (c2 : ascii) :
  String.get (String.length t - 1) t = Some c2 ->
  unit_letter (tolower c2) = false ->
  parseSetting b t = assign set_maximumEntries b (converted (stoul t)).
Proof.
  intros Hget Hunit.
  destruct (lastTwoChars_last t c2 Hget) as (c1 & Htwo & _).
  destruct (unit_letter_false _ Hunit) as (Hb & Hy & Hm & Hw & Hd & Hh & Hs).
  unfold parseSetting. rewrite Htwo.
  cbn [String.eqb String.get]. rewrite Hb.
  replace (if Ascii.eqb (tolower c1) "t" then false else false) with false
    by (by destruct (Ascii.eqb (tolower c1) "t")).
  replace (if Ascii.eqb (tolower c1) "g" then false else false) with false
    by (by destruct (Ascii.eqb (tolower c1) "g")).
  replace (if Ascii.eqb (tolower c1) "m" then false else false) with false
    by (by destruct (Ascii.eqb (tolower c1) "m")).
  replace (if Ascii.eqb (tolower c1) "k" then false else false) with false
    by (by destruct (Ascii.eqb (tolower c1) "k")).
  by rewrite Hy, Hm, Hw, Hd, Hh, Hs.
Qed.

(** A token of digits sets the count budget to its value, unless the
    value does not fit and [std::stoul] throws. *)
Lemma parseSetting_digits (b : Budgets) (t : string) :
  t <> EmptyString ->
  all_chars isdigit t = true ->
  parseSetting b t =
    if decide (decimal_value (leading_digits t) <= ULONG_MAX)
    then set_maximumEntries b (decimal_value (leading_digits t))
    else b.
Proof.
  intros Hne Hall.
  destruct (last_char_is_Some t Hne) as [c2 Hget].
  pose proof (all_chars_get _ _ _ _ Hall Hget) as Hc2.
  rewrite (parseSetting_without_suffix b t c2 Hget (isdigit_not_a_unit c2 Hc2)).
  destruct t as [|c r]; [done|].
  simpl in Hall. apply andb_true_iff in Hall as [Hc _].
  rewrite (stoul_leading_digit c r Hc).
  by destruct (decide _).
Qed.

Lemma parseSetting_plain_integer (b : Budgets) (t : string) :
  t <> EmptyString ->
  all_chars isdigit t = true ->
  decimal_value (leading_digits t) <= ULONG_MAX ->
  parseSetting b t = set_maximumEntries b (decimal_value (leading_digits t)).
Proof.
  intros Hne Hall Hfit. rewrite (parseSetting_digits b t Hne Hall).
  destruct (decide _); [done|lia].
Qed.

(** A token with no unit letter that [std::stoul] does not convert leaves
    every budget as it was. *)
Lemma parseSetting_skips_unparsable (b : Budgets) (t : string) (c2 : ascii) (e : exception) :
  String.get (String.length t - 1) t = Some c2 ->
  unit_letter (tolower c2) = false ->
  stoul t = inl e ->
  parseSetting b t = b.
Proof.
  intros Hget Hunit Hconv.
  rewrite (parseSetting_without_suffix b t c2 Hget Hunit). by rewrite Hconv.
Qed.


(** Later settings are read with the budgets the earlier ones left. *)
Lemma parseSettings_from_app (b : Budgets) (l1 l2 : list string) :
  parseSettings_from b (l1 ++ l2) = parseSettings_from (parseSettings_from b l1) l2.
Proof. revert b. induction l1 as [|t l1 IH]; intros b; simpl; [done|apply IH]. Qed.


End Settings.


Example parseSettings_overrides :
  @parseSettings no_long_double ["10"; "zz"; "64b"; "20"; "x5"; "7s"]%string =
    {| maximumBytes := 64; maximumSeconds := 7; maximumEntries := 20 |}.
Proof. vm_compute. reflexivity. Qed.

(** A count written on one character is read as it is on two, and so it is
    behind a size setting. *)
Example parseSettings_one_character :
  @parseSettings no_long_double ["5"]%string =
    {| maximumBytes := 0; maximumSeconds := 0; maximumEntries := 5 |} /\
  @parseSettings no_long_double ["05"]%string =
    {| maximumBytes := 0; maximumSeconds := 0; maximumEntries := 5 |} /\
  @parseSettings no_long_double ["25b"; "5"]%string =
    {| maximumBytes := 25; maximumSeconds := 0; maximumEntries := 5 |}.
Proof. by vm_compute. Qed.

(** A single unit letter and an empty piece have nothing to convert: the
    budgets stay as they were. *)
Example parseSettings_without_digits :
  @parseSettings no_long_double ["7"; "b"; "s"; EmptyString]%string =
    {| maximumBytes := 0; maximumSeconds := 0; maximumEntries := 7 |}.
Proof. vm_compute. reflexivity. Qed.

(** A minus sign is accepted by [std::stoul] and the value wraps. *)
Example parseSettings_negative :
  @parseSettings no_long_double ["-5"]%string =
    {| maximumBytes := 0; maximumSeconds := 0; maximumEntries := 2 ^ 64 - 5 |}.
Proof. vm_compute. reflexivity. Qed.

(** A count of twenty digits does not fit an [unsigned long]: the token is
    skipped and the count of the setting before it stays. *)
Example parseSettings_out_of_range :
  @parseSettings no_long_double ["3"; "18446744073709551616"]%string =
    {| maximumBytes := 0; maximumSeconds := 0; maximumEntries := 3 |}.
Proof. vm_compute. reflexivity. Qed.

(** * Further properties *)

(** ** Decimal names and their conversions *)

Lemma decimal_value_from (acc : N) (ds : list N) :
  foldl (fun acc d => 10 * acc + d) acc ds =
    acc * 10 ^ N.of_nat (length ds) + decimal_value ds.
Proof.
  unfold decimal_value. revert acc. induction ds as [|d ds IH]; intros acc.
  - simpl. lia.
  - cbn [foldl length]. rewrite IH, (IH (10 * 0 + d)).
    rewrite Nat2N.inj_succ, N.pow_succ_r'. lia.
Qed.

Lemma decimal_value_cons (d : N) (ds : list N) :
  decimal_value (d :: ds) = d * 10 ^ N.of_nat (length ds) + decimal_value ds.
Proof.
  unfold decimal_value at 1. cbn [foldl]. rewrite decimal_value_from. lia.
Qed.

(** A check made on every number below a bound holds for each of them. *)
Lemma checked_below (P : N -> bool) (m : nat) (n : N) :
  forallb P (N.of_nat <$> seq 0 m) = true -> n < N.of_nat m -> P n = true.
Proof.
  intros Hall Hn. rewrite forallb_forall in Hall. apply Hall.
  apply list_elem_of_In, list_elem_of_fmap. exists (N.to_nat n).
  split; [lia|]. apply elem_of_seq. lia.
Qed.

Lemma digit_pretty_N_char (d : N) : d < 10 -> digit (pretty_N_char d) = Some d.
Proof.
  intros Hd.
  pose proof (checked_below
                (fun d => match digit (pretty_N_char d) with
                          | Some v => N.eqb v d
                          | None => false
                          end) 10 d eq_refl Hd) as Hcheck.
  simpl in Hcheck. destruct (digit (pretty_N_char d)) as [v|]; [|done].
  apply N.eqb_eq in Hcheck. by subst.
Qed.

(** The digits written in front of [s] are read back with their value. *)
Lemma leading_digits_pretty_N_go (x : N) (s : string) :
  decimal_value (leading_digits (pretty_N_go x s)) =
    x * 10 ^ N.of_nat (length (leading_digits s)) + decimal_value (leading_digits s).
Proof.
  revert s. induction (N.lt_wf_0 x) as [x _ IH]; intros s.
  destruct (decide (x = 0)) as [->|Hx].
  - rewrite pretty_N_go_0. lia.
  - rewrite pretty_N_go_step by lia.
    rewrite IH by (apply N.div_lt; lia).
    cbn [leading_digits]. rewrite digit_pretty_N_char by (apply N.mod_lt; lia).
    rewrite decimal_value_cons. cbn [length].
    rewrite Nat2N.inj_succ, N.pow_succ_r'.
    pose proof (N.div_mod x 10 ltac:(lia)) as Hdm.
    set (q := x `div` 10) in *. set (r := x `mod` 10) in *.
    set (P := 10 ^ N.of_nat (length (leading_digits s))).
    set (V := decimal_value (leading_digits s)).
    clearbody q r P V. subst x. ring.
Qed.

(** What is written for a positive number starts with a digit. *)
Lemma pretty_N_go_starts_with_digit (x : N) (s : string) :
  0 < x -> exists c r, pretty_N_go x s = String c r /\ isdigit c = true.
Proof.
  revert s. induction (N.lt_wf_0 x) as [x _ IH]; intros s Hx.
  rewrite pretty_N_go_step by done.
  destruct (decide (x `div` 10 = 0)) as [Hz|Hnz].
  - rewrite Hz, pretty_N_go_0. eexists _, _. split; [done|].
    unfold isdigit. apply bool_decide_eq_true_2.
    rewrite digit_pretty_N_char by (apply N.mod_lt; lia). done.
  - apply IH; [apply N.div_lt; lia|by apply N.neq_0_lt_0].
Qed.

Lemma to_string_starts_with_digit (n : N) :
  exists c r, to_string n = String c r /\ isdigit c = true.
Proof.
  unfold to_string, pretty, pretty_N. destruct (decide (n = 0)) as [->|Hn].
  - by exists "0"%char, EmptyString.
  - apply pretty_N_go_starts_with_digit. lia.
Qed.

Lemma decimal_value_to_string (n : N) :
  decimal_value (leading_digits (to_string n)) = n.
Proof.
  unfold to_string, pretty, pretty_N. destruct (decide (n = 0)) as [->|Hn].
  - reflexivity.
  - rewrite leading_digits_pretty_N_go. cbn [leading_digits length].
    change (decimal_value []) with 0. change (N.of_nat 0) with 0.
    rewrite N.pow_0_r. lia.
Qed.

Lemma leading_digits_starts_with_digit (c : ascii) (r : string) :
  isdigit c = true -> leading_digits (String c r) <> [].
Proof.
  unfold isdigit. intros H. apply bool_decide_eq_true_1 in H as [d Hd].
  cbn [leading_digits]. by rewrite Hd.
Qed.

(** X1: the name [std::to_string] gives to the directory of the entry [n]
    is read back as [n] by [std::from_chars], for every [n] an [unsigned
    long] holds. *)
Theorem from_chars_to_string (n : N) :
  n <= ULONG_MAX -> from_chars (to_string n) = Some n.
Proof.
  intros Hn. unfold from_chars.
  destruct (to_string_starts_with_digit n) as (c & r & Hname & Hc).
  pose proof (decimal_value_to_string n) as Hval.
  pose proof (leading_digits_starts_with_digit c r Hc) as Hne.
  rewrite Hname in *.
  destruct (leading_digits (String c r)) as [|d ds]; [done|].
  rewrite Hval. destruct (decide _); [done|lia].
Qed.

Lemma from_chars_to_string_witness : from_chars (to_string 42) = Some 42.
Proof. apply from_chars_to_string. vm_compute. discriminate. Defined.


Lemma stoi_leading_digit (c : ascii) (r : string) :
  isdigit c = true ->
  stoi (String c r) =
    if decide (INT_MIN <= Z.of_N (decimal_value (leading_digits (String c r))) <= INT_MAX)%Z
    then inr (Z.of_N (decimal_value (leading_digits (String c r))))
    else inl out_of_range.
Proof.
  intros Hc. pose proof (isdigit_code c Hc) as Hcode.
  unfold stoi, sign_and_digits. cbn [skip_spaces].
  assert (isspace c = false) as ->.
  { unfold isspace. apply bool_decide_eq_false_2. lia. }
  rewrite !(ascii_eqb_by_code c) by (simpl; lia).
  pose proof (leading_digits_starts_with_digit c r Hc) as Hne.
  by destruct (leading_digits (String c r)).
Qed.

(** The text [getLock] writes for a PID is converted back to that PID by
    [std::stoi]. *)
Lemma stoi_pretty (pid : Z) :
  (INT_MIN <= pid <= INT_MAX)%Z -> stoi (pretty pid) = inr pid.
Proof.
  intros Hpid. destruct pid as [|p|p].
  - reflexivity.
  - change (pretty (Z.pos p)) with (to_string (N.pos p)).
    destruct (to_string_starts_with_digit (N.pos p)) as (c & r & Hname & Hc).
    pose proof (decimal_value_to_string (N.pos p)) as Hval. rewrite Hname in *.
    rewrite (stoi_leading_digit c r Hc), Hval.
    destruct (decide _) as [_|Hout]; [done|]. exfalso. apply Hout. simpl. lia.
  - change (pretty (Z.neg p)) with (String "-" (to_string (N.pos p))).
    destruct (to_string_starts_with_digit (N.pos p)) as (c & r & Hname & Hc).
    pose proof (decimal_value_to_string (N.pos p)) as Hval. rewrite Hname in *.
    pose proof (leading_digits_starts_with_digit c r Hc) as Hne.
    unfold stoi, sign_and_digits. cbn [skip_spaces].
    replace (isspace "-") with false by reflexivity.
    replace (Ascii.eqb "-" "-") with true by reflexivity.
    destruct (leading_digits (String c r)) as [|d ds]; [done|].
    rewrite Hval. simpl Z.of_N.
    destruct (decide _) as [_|Hout]; [done|]. exfalso. apply Hout. simpl. lia.
Qed.

(** ** The index of a directory the store itself has filled *)

#[global] Instance newer_trans : Transitive newer.
Proof. intros x y z. unfold newer. lia. Qed.

Lemma omap_from_chars_to_string (ns : list N) :
  Forall (fun n => n <= ULONG_MAX) ns ->
  omap from_chars (to_string <$> ns) = ns.
Proof.
  induction 1 as [|n ns Hn _ IH]; [done|].
  cbn [fmap list_fmap omap list_omap].
  destruct (to_string_starts_with_digit n) as (c & r & Hname & Hc).
  pose proof (decimal_value_to_string n) as Hval.
  pose proof (leading_digits_starts_with_digit c r Hc) as Hne.
  unfold from_chars at 1. rewrite Hname in *.
  destruct (leading_digits (String c r)) as [|d ds]; [done|].
  rewrite Hval. destruct (decide _); [|lia]. by rewrite IH.
Qed.

Lemma Sorted_descending_NoDup (l : list N) :
  Sorted descending l -> NoDup l -> Sorted newer l.
Proof.
  intros Hs Hnd. apply Sorted_StronglySorted in Hs; [|apply _].
  induction Hs as [|x l Hl IH Hall]; [constructor|].
  apply NoDup_cons in Hnd as [Hx Hnd]. constructor; [by apply IH|].
  destruct l as [|y l']; constructor.
  apply Forall_cons in Hall as [Hxy _]. unfold descending, newer in *.
  assert (x <> y) by (intros ->; apply Hx; left). lia.
Qed.

Lemma Sorted_newer_bound (x : N) (l : list N) :
  Sorted newer (x :: l) -> Forall (fun y => y < x) l.
Proof.
  intros Hs. apply Sorted_StronglySorted in Hs; [|apply _].
  by apply StronglySorted_inv in Hs as [_ Hall].
Qed.

Lemma index_of_canonical_names (ns : list N) (names : list string) :
  Forall (fun n => n <= ULONG_MAX) ns ->
  names ≡ₚ "."%string :: ".."%string :: (to_string <$> ns) ->
  generatedEntryIndex names ≡ₚ
    match ns with
    | [] => [0]
    | _ => ns
    end.
Proof.
  intros Hfit Hnames.
  assert (omap from_chars names ≡ₚ ns) as Hparsed.
  { rewrite Hnames. cbn [omap list_omap].
    replace (from_chars ".") with (@None N) by reflexivity.
    replace (from_chars "..") with (@None N) by reflexivity.
    by rewrite omap_from_chars_to_string. }
  unfold generatedEntryIndex. rewrite index_of_names_perm.
  destruct ns as [|n ns'].
  - apply Permutation_nil_r in Hparsed. by rewrite Hparsed.
  - destruct (omap from_chars names) as [|v vs] eqn:Hv; [|done].
    by apply Permutation_nil_cons in Hparsed.
Qed.

(** X2: in a data directory that holds the dot entries and one directory
    named [std::to_string(n)] for each ordinal of a duplicate-free list (in
    any order), the generated index holds exactly those ordinals, each
    once, in strictly decreasing order; it is the single element 0 when
    the list is empty. *)
Theorem generatedEntryIndex_canonical (ns : list N) (names : list string) :
  NoDup ns ->
  Forall (fun n => n <= ULONG_MAX) ns ->
  names ≡ₚ "."%string :: ".."%string :: (to_string <$> ns) ->
  generatedEntryIndex names ≡ₚ
    match ns with
    | [] => [0]
    | _ => ns
    end /\
  Sorted newer (generatedEntryIndex names).
Proof.
  intros Hnd Hfit Hnames.
  pose proof (index_of_canonical_names ns names Hfit Hnames) as Hperm.
  split; [done|].
  apply Sorted_descending_NoDup; [apply sort_descending_sorted|].
  rewrite Hperm. destruct ns; [|done]. apply NoDup_singleton.
Qed.

Lemma generatedEntryIndex_canonical_witness :
  generatedEntryIndex ["."; ".."; "2"; "10"; "1"]%string ≡ₚ [2; 10; 1] /\
  Sorted newer (generatedEntryIndex ["."; ".."; "2"; "10"; "1"]%string).
Proof.
  apply (generatedEntryIndex_canonical [2; 10; 1] ["."; ".."; "2"; "10"; "1"]%string).
  - apply (bool_decide_unpack (NoDup [2; 10; 1])). vm_compute. exact I.
  - repeat constructor; vm_compute; discriminate.
  - change (to_string <$> [2; 10; 1]) with ["2"; "10"; "1"]%string. reflexivity.
Defined.

#[global] Instance descending_antisymm : AntiSymm (=) descending.
Proof. intros x y. unfold descending. lia. Qed.

Lemma Sorted_newer_descending (l : list N) : Sorted newer l -> Sorted descending l.
Proof.
  induction 1 as [|x l Hl IH Hhd]; constructor; [done|].
  destruct Hhd; constructor. unfold newer, descending in *. lia.
Qed.

(** X3: the index survives a round through the disk: when the data
    directory lists the dot entries and the directory of every ordinal of
    a non-empty, strictly decreasing index (in any order), the index
    generated from it is that index. *)
Theorem generatedEntryIndex_reopen (index : list N) (names : list string) :
  index <> [] ->
  Sorted newer index ->
  Forall (fun n => n <= ULONG_MAX) index ->
  names ≡ₚ "."%string :: ".."%string :: (to_string <$> index) ->
  generatedEntryIndex names = index.
Proof.
  intros Hne Hsorted Hfit Hnames.
  pose proof (index_of_canonical_names index names Hfit Hnames) as Hperm.
  apply (Sorted_unique descending).
  - apply sort_descending_sorted.
  - by apply Sorted_newer_descending.
  - by destruct index.
Qed.

Lemma generatedEntryIndex_reopen_witness :
  generatedEntryIndex ["."; ".."; "10"; "2"; "1"]%string = [10; 2; 1].
Proof.
  apply (generatedEntryIndex_reopen [10; 2; 1] ["."; ".."; "10"; "2"; "1"]%string).
  - discriminate.
  - repeat constructor; unfold newer; lia.
  - repeat constructor; vm_compute; discriminate.
  - change (to_string <$> [10; 2; 1]) with ["10"; "2"; "1"]%string. reflexivity.
Defined.

(** ** The current position *)

(** X4: the data handle follows the current position.  A clipboard that
    the constructor, [setEntry] or [makeNewEntry] returns has its data
    handle at the element of the index its position names, and [setEntry]
    leaves the index as it was; when [setEntry] or [makeNewEntry] lets the
    exception of [at] escape, the object is left with a position outside
    its index. *)
Theorem resolved_by_every_selection
  (names : list string) (clipboard_entry : N) (k : Console) (c : Clipboard) (entry : N) :
  match Clipboard_open names clipboard_entry k with
  | Returned c' => resolved c' /\ this_entry c' = clipboard_entry
  | Exited _ _ => N.of_nat (length (generatedEntryIndex names)) <= clipboard_entry
  | _ => False
  end /\
  match setEntry c entry with
  | Returned c' => resolved c' /\ this_entry c' = entry /\ entryIndex c' = entryIndex c
  | Threw _ c' => N.of_nat (length (entryIndex c')) <= this_entry c' /\ ~ resolved c'
  | _ => False
  end /\
  match makeNewEntry c with
  | Returned c' => resolved c' /\ this_entry c' = this_entry c
  | Threw _ c' => N.of_nat (length (entryIndex c')) <= this_entry c' /\ ~ resolved c'
  | Exited _ _ => False
  | Undefined => entryIndex c = []
  end.
Proof.
  assert (forall (l : list N) (pos : N),
            deque_at l pos = None -> N.of_nat (length l) <= pos) as Hout.
  { intros l pos Hnone. unfold deque_at in Hnone.
    apply lookup_ge_None in Hnone. lia. }
  split; [|split].
  - unfold Clipboard_open, resolved.
    destruct (deque_at (generatedEntryIndex names) clipboard_entry) as [n|] eqn:Hat.
    + by simpl.
    + by apply Hout.
  - unfold setEntry, resolved.
    destruct (deque_at (entryIndex c) entry) as [n|] eqn:Hat; simpl.
    + done.
    + split; [by apply Hout|]. by rewrite Hat.
  - unfold makeNewEntry, resolved.
    destruct (entryIndex c) as [|front rest] eqn:Hidx; [done|].
    destruct (deque_at (ulong_add front 1 :: front :: rest) (this_entry c))
      as [n|] eqn:Hat; simpl.
    + done.
    + split; [by apply Hout in Hat|]. by rewrite Hat.
Qed.

Lemma length_generatedEntryIndex (names : list string) :
  length (generatedEntryIndex names) = Nat.max 1 (length (omap from_chars names)).
Proof.
  unfold generatedEntryIndex. rewrite (Permutation_length (index_of_names_perm _ _)).
  destruct (omap from_chars names); simpl; lia.
Qed.

(** X5: opening a clipboard at a position returns exactly when the
    position is below the number of child names that convert (below 1 when
    none does); otherwise the state is set to the error state, the
    indicator is stopped, the message naming the position is printed and
    the process exits with [EXIT_FAILURE]. *)
Theorem Clipboard_open_position (names : list string) (clipboard_entry : N) (k : Console) :
  if decide (clipboard_entry < N.of_nat (Nat.max 1 (length (omap from_chars names))))
  then exists n,
         Clipboard_open names clipboard_entry k =
           Returned {| this_entry := clipboard_entry;
                       entryIndex := generatedEntryIndex names;
                       data := n |} /\
         generatedEntryIndex names !! N.to_nat clipboard_entry = Some n
  else Clipboard_open names clipboard_entry k =
         Exited 1 {| clipboard_state_Error := true;
                     indicator_running := false;
                     stderr := stderr k ++ [NoSuchEntryMessage clipboard_entry] |}.
Proof.
  rewrite <- length_generatedEntryIndex. unfold Clipboard_open.
  destruct (decide _) as [Hin|Hout].
  - destruct (deque_at_is_Some _ _ Hin) as [n Hn]. rewrite Hn. by exists n.
  - rewrite deque_at_None by lia. done.
Qed.

(** X6: on an index in strictly decreasing order whose front is not the
    largest [unsigned long], [makeNewEntry] returns with an ordinal in
    front that no element of the index had, one above the old front, and
    the index is in strictly decreasing order again. *)
Theorem makeNewEntry_fresh (c : Clipboard) (front : N) (rest : list N) :
  entryIndex c = front :: rest ->
  Sorted newer (entryIndex c) ->
  front < ULONG_MAX ->
  this_entry c < N.of_nat (length (entryIndex c)) ->
  exists c',
    makeNewEntry c = Returned c' /\
    entryIndex c' = (front + 1) :: entryIndex c /\
    ~ ((front + 1) ∈ entryIndex c) /\
    Sorted newer (entryIndex c').
Proof.
  intros Hidx Hsorted Hfront Hpos.
  destruct (makeNewEntry_returns c front rest Hidx Hpos) as [n Hn].
  assert (ulong_add front 1 = front + 1) as Hadd.
  { unfold ulong_add. apply N.mod_small. unfold ULONG_MAX in Hfront. lia. }
  rewrite Hadd in Hn. eexists. split; [exact Hn|]. simpl. split; [done|].
  rewrite Hidx in *. split.
  - pose proof (Sorted_newer_bound front rest Hsorted) as Hall.
    intros Hin. apply elem_of_cons in Hin as [Heq|Hin]; [lia|].
    rewrite Forall_forall in Hall. specialize (Hall _ Hin). lia.
  - constructor; [done|]. constructor. unfold newer. lia.
Qed.

Lemma makeNewEntry_fresh_witness :
  exists c',
    makeNewEntry clip_four = Returned c' /\
    entryIndex c' = (3 + 1) :: [3; 2; 1; 0] /\
    ~ ((3 + 1) ∈ [3; 2; 1; 0]) /\
    Sorted newer (entryIndex c').
Proof.
  apply (makeNewEntry_fresh clip_four 3 [2; 1; 0]).
  - reflexivity.
  - repeat constructor; unfold newer; lia.
  - vm_compute. reflexivity.
  - vm_compute. reflexivity.
Defined.

(** ** Whether the history holds data *)

Lemma countdown_S (n : nat) : countdown (S n) = N.of_nat n :: countdown n.
Proof.
  unfold countdown. rewrite seq_S, reverse_app. simpl. done.
Qed.

Lemma length_countdown (n : nat) : length (countdown n) = n.
Proof. unfold countdown. by rewrite length_fmap, length_reverse, length_seq. Qed.

Lemma elem_of_countdown (n : nat) (x : N) : x ∈ countdown n <-> x < N.of_nat n.
Proof.
  induction n as [|n IH].
  - unfold countdown. simpl. split; [by intros ?%elem_of_nil|lia].
  - rewrite countdown_S, elem_of_cons, IH. lia.
Qed.

Lemma lookup_countdown (n : nat) (i : nat) :
  (i < n)%nat -> countdown n !! i = Some (N.of_nat (n - 1 - i)).
Proof.
  revert i. induction n as [|n IH]; intros i Hi; [lia|].
  rewrite countdown_S. destruct i as [|i]; simpl.
  - do 2 f_equal. lia.
  - rewrite IH by lia. do 2 f_equal. lia.
Qed.

(** The front of an index in strictly decreasing order is at least its
    size less one, and only the index without gaps has it that small. *)
Lemma Sorted_newer_front (x : N) (l : list N) :
  Sorted newer (x :: l) -> N.of_nat (length l) <= x.
Proof.
  revert x. induction l as [|y l IH]; intros x Hs; [simpl; lia|].
  apply Sorted_inv in Hs as [Hl Hhd]. apply HdRel_inv in Hhd.
  specialize (IH y Hl). unfold newer in Hhd. simpl. lia.
Qed.

Lemma Sorted_newer_countdown (x : N) (l : list N) :
  Sorted newer (x :: l) -> x = N.of_nat (length l) -> x :: l = countdown (S (length l)).
Proof.
  revert x. induction l as [|y l IH]; intros x Hs Hx.
  - by subst.
  - pose proof Hs as Hs'. apply Sorted_inv in Hs' as [Hl Hhd]. apply HdRel_inv in Hhd.
    pose proof (Sorted_newer_front y l Hl) as Hy. unfold newer in Hhd.
    simpl length in *. rewrite countdown_S, <- (IH y Hl) by lia. by subst.
Qed.

(** X7: [holdsData] hands each element of the index to [entryPathFor],
    which reads it as a position.  On an index in strictly decreasing
    order that has a gap (it is not [n - 1], ..., 1, 0 for its size [n]),
    the front element is not a position of the index, and the call ends
    the process with the message naming it before any directory is
    looked at. *)
Theorem holdsData_with_gap_exits
  (c : Clipboard) (front : N) (rest : list N) (is_empty_entry : N -> option bool)
  (k : Console) :
  entryIndex c = front :: rest ->
  Sorted newer (entryIndex c) ->
  entryIndex c <> countdown (length (entryIndex c)) ->
  holdsData c is_empty_entry k =
    Ran (Exited EXIT_FAILURE
           {| clipboard_state_Error := true;
              indicator_running := false;
              stderr := stderr k ++ [NoSuchEntryMessage front] |}).
Proof.
  intros Hidx Hsorted Hgap. unfold holdsData. rewrite Hidx in *.
  assert (N.of_nat (length (front :: rest)) <= front) as Hbeyond.
  { pose proof (Sorted_newer_front front rest Hsorted) as Hge.
    destruct (decide (front = N.of_nat (length rest))) as [Heq|Hne].
    - exfalso. apply Hgap. by apply Sorted_newer_countdown.
    - simpl. lia. }
  cbn [holdsData_from]. unfold entryPathFor.
  by rewrite (deque_at_None _ _ Hbeyond).
Qed.

Lemma holdsData_with_gap_exits_witness :
  holdsData {| this_entry := 0; entryIndex := [3; 2]; data := 3 |}
    (fun _ => Some false) console0 =
    Ran (Exited EXIT_FAILURE
           {| clipboard_state_Error := true;
              indicator_running := false;
              stderr := [NoSuchEntryMessage 3] |}).
Proof.
  apply (holdsData_with_gap_exits
           {| this_entry := 0; entryIndex := [3; 2]; data := 3 |} 3 [2]).
  - reflexivity.
  - repeat constructor; unfold newer; lia.
  - discriminate.
Defined.

Lemma holdsData_from_countdown
  (n : nat) (is_empty_entry : N -> option bool) (empty : N -> bool) (k : Console)
  (remaining : list N) :
  (forall i, i < N.of_nat n -> is_empty_entry i = Some (empty i)) ->
  Forall (fun entry => entry < N.of_nat n) remaining ->
  holdsData_from (countdown n) is_empty_entry k remaining =
    Ran (Returned
           (existsb (fun entry => negb (empty (N.of_nat n - 1 - entry))) remaining)).
Proof.
  intros Hdirs. induction 1 as [|entry rest Hentry _ IH]; [done|].
  cbn [holdsData_from existsb]. unfold entryPathFor, deque_at.
  rewrite lookup_countdown by lia.
  replace (N.of_nat (n - 1 - N.to_nat entry)) with (N.of_nat n - 1 - entry) by lia.
  rewrite Hdirs by lia.
  destruct (empty (N.of_nat n - 1 - entry)); simpl; [apply IH|done].
Qed.

(** X8: on the index without gaps [n - 1], ..., 1, 0, with every entry
    directory present, [holdsData] returns, and it returns [true] exactly
    when the directory of some entry is not empty. *)
Theorem holdsData_without_gap
  (c : Clipboard) (n : nat) (is_empty_entry : N -> option bool) (empty : N -> bool)
  (k : Console) :
  entryIndex c = countdown n ->
  (forall i, i < N.of_nat n -> is_empty_entry i = Some (empty i)) ->
  exists b : bool,
    holdsData c is_empty_entry k = Ran (Returned b) /\
    (b = true <-> exists i, i < N.of_nat n /\ empty i = false).
Proof.
  intros Hidx Hdirs. unfold holdsData. rewrite Hidx.
  rewrite (holdsData_from_countdown n is_empty_entry empty k (countdown n) Hdirs).
  2: { apply Forall_forall. intros x Hx. by apply elem_of_countdown. }
  eexists. split; [done|]. rewrite existsb_exists. split.
  - intros (entry & Hin & Hne). apply list_elem_of_In, elem_of_countdown in Hin.
    exists (N.of_nat n - 1 - entry). split; [lia|]. by apply negb_true_iff.
  - intros (i & Hi & He). exists (N.of_nat n - 1 - i). split.
    + apply list_elem_of_In, elem_of_countdown. lia.
    + apply negb_true_iff. by replace (N.of_nat n - 1 - (N.of_nat n - 1 - i)) with i by lia.
Qed.

Lemma holdsData_without_gap_witness :
  exists b : bool,
    holdsData {| this_entry := 0; entryIndex := [2; 1; 0]; data := 2 |}
      (fun i => Some (negb (N.eqb i 1))) console0 = Ran (Returned b) /\
    (b = true <-> exists i, i < N.of_nat 3 /\ negb (N.eqb i 1) = false).
Proof.
  apply (holdsData_without_gap
           {| this_entry := 0; entryIndex := [2; 1; 0]; data := 2 |} 3
           (fun i => Some (negb (N.eqb i 1))) (fun i => negb (N.eqb i 1))).
  - reflexivity.
  - intros i _. reflexivity.
Defined.

(** ** Whether the current entry holds data *)

Section CurrentEntry.
Context {Names : Constants}.

Lemma existsb_map_to_list (d : gmap string child) :
  existsb (fun entry => negb (is_empty (snd entry))) (map_to_list d) = true <->
  exists name ch, d !! name = Some ch /\ is_empty ch = false.
Proof.
  rewrite existsb_exists. split.
  - intros ([name ch] & Hin & Hne). exists name, ch.
    apply list_elem_of_In, elem_of_map_to_list in Hin.
    split; [done|]. by apply negb_true_iff.
  - intros (name & ch & Hlook & Hne). exists (name, ch). split.
    + by apply list_elem_of_In, elem_of_map_to_list.
    + by apply negb_true_iff.
Qed.

Lemma holdsDataInCurrentEntry_true_iff (t : EntryTree) :
  holdsDataInCurrentEntry t = Some true <->
  exists d name ch,
    data_tree t = Some d /\ d !! name = Some ch /\ is_empty ch = false.
Proof.
  unfold holdsDataInCurrentEntry. destruct (data_tree t) as [d|].
  - split.
    + intros [= Hb]. exists d.
      destruct (decide (d = ∅)) as [->|Hne]; [done|].
      destruct (holdsRawData_in d) eqn:Hraw.
      * unfold holdsRawData_in in Hraw.
        destruct (d !! data_file_name) as [ch|] eqn:Hlook; [|done].
        exists data_file_name, ch. split; [done|]. split; [done|].
        by apply negb_true_iff.
      * apply existsb_map_to_list in Hb as (name & ch & Hlook & Hch).
        by exists name, ch.
    + intros (d' & name & ch & [= <-] & Hlook & Hch). f_equal.
      destruct (decide (d = ∅)) as [->|Hne]; [by rewrite lookup_empty in Hlook|].
      destruct (holdsRawData_in d); [done|].
      apply existsb_map_to_list. by exists name, ch.
  - split; [done|]. by intros (d & name & ch & Hd & _).
Qed.

(** X9: [holdsDataInCurrentEntry] throws exactly when the entry directory
    does not exist, and otherwise answers [true] exactly when some direct
    child of the directory, file or directory, is not empty: the test of
    the raw file and the test for an empty directory in front of the loop
    change nothing in the answer. *)
Theorem holdsDataInCurrentEntry_some_child (t : EntryTree) :
  (holdsDataInCurrentEntry t = None <-> data_tree t = None) /\
  (holdsDataInCurrentEntry t = Some true <->
   exists d name ch,
     data_tree t = Some d /\ d !! name = Some ch /\ is_empty ch = false).
Proof.
  split; [|apply holdsDataInCurrentEntry_true_iff].
  unfold holdsDataInCurrentEntry. by destruct (data_tree t).
Qed.

(** X10: [isUnused] answers [true] exactly when the entry directory
    exists with every direct child empty and the notes file and the
    originals file are each absent or empty. *)
Theorem isUnused_characterised (t : EntryTree) :
  isUnused t = Some true <->
  exists d,
    data_tree t = Some d /\
    (forall name ch, d !! name = Some ch -> is_empty ch = true) /\
    exists_nonempty (notes t) = false /\
    exists_nonempty (originals t) = false.
Proof.
  pose proof (holdsDataInCurrentEntry_true_iff t) as Htrue.
  unfold isUnused.
  destruct (holdsDataInCurrentEntry t) as [[|]|] eqn:Hholds.
  - split; [done|]. intros (d & Hd & Hall & _).
    destruct Htrue as [Htrue _]. destruct (Htrue eq_refl) as (d' & name & ch & Hd' & Hl & Hch).
    rewrite Hd in Hd'. injection Hd' as <-. rewrite (Hall _ _ Hl) in Hch. done.
  - assert (exists d, data_tree t = Some d) as [d Hd].
    { unfold holdsDataInCurrentEntry in Hholds.
      destruct (data_tree t) as [d|]; [by exists d|done]. }
    assert (forall name ch, d !! name = Some ch -> is_empty ch = true) as Hall.
    { intros name ch Hl. destruct (is_empty ch) eqn:Hch; [done|].
      destruct Htrue as [_ Htrue].
      assert (Some false = Some true) by (apply Htrue; by exists d, name, ch).
      done. }
    destruct (exists_nonempty (notes t)) eqn:Hnotes.
    { split; [done|]. by intros (_ & _ & _ & ? & _). }
    destruct (exists_nonempty (originals t)) eqn:Horig.
    { split; [done|]. by intros (_ & _ & _ & _ & ?). }
    split; [|done]. intros _. by exists d.
  - split; [done|]. intros (d & Hd & _).
    unfold holdsDataInCurrentEntry in Hholds. by rewrite Hd in Hholds.
Qed.

End CurrentEntry.

(** ** The content filter on the other branches *)

Section FilterBranches.
Context {Engine : RegexEngine} {Names : Constants}.

Lemma remove_matching_lookup (dir : gmap string string) (regexes : list regex)
  (name : string) :
  remove_matching dir regexes !! name =
    if existsb (regex_match name) regexes then None else dir !! name.
Proof.
  unfold remove_matching. revert dir.
  induction regexes as [|r regexes IH]; intros dir; [done|].
  cbn [foldl existsb]. rewrite IH.
  destruct (existsb (regex_match name) regexes).
  { by rewrite orb_true_r. }
  rewrite orb_false_r, map_lookup_filter. simpl.
  destruct (dir !! name) as [content|]; simpl; [|by destruct (regex_match name r)].
  destruct (regex_match name r); by case_guard.
Qed.

(** X11: with a non-empty [ignore_regex] file whose lines are all patterns
    and an entry that does not hold raw data, [applyIgnoreRules] returns
    with exactly the children removed whose whole name matches one of the
    patterns; every other child is left with its content, the metadata
    files are left as they are, and the secret pass changes nothing. *)
Theorem applyIgnoreRules_removes_matching_children
  (f : EntryFiles) (regexes : list regex) :
  holdsIgnoreRegexes f = true ->
  mapM regex_compile (fileLines (default EmptyString (ignore f))) = Some regexes ->
  holdsRawDataInCurrentEntry f = false ->
  exists f',
    applyIgnoreRules f = Returned f' /\
    ignore f' = ignore f /\
    ignore_secret f' = ignore_secret f /\
    forall name : string,
      data_dir f' !! name =
        if existsb (regex_match name) regexes then None else data_dir f !! name.
Proof.
  intros Hre Hcompile Hraw.
  set (f1 := {| data_dir := remove_matching (data_dir f) regexes;
                ignore := ignore f;
                ignore_secret := ignore_secret f |}).
  assert (applyIgnoreRegexes f = Returned f1) as Hfirst.
  { unfold applyIgnoreRegexes, ignoreRegexes. by rewrite Hre, Hcompile, Hraw. }
  assert (holdsRawDataInCurrentEntry f1 = false) as Hraw1.
  { unfold holdsRawDataInCurrentEntry, raw in *. simpl.
    rewrite remove_matching_lookup.
    by destruct (existsb (regex_match data_file_name) regexes). }
  exists f1. split.
  - unfold applyIgnoreRules. rewrite Hfirst. f_equal.
    rewrite applyIgnoreSecrets_unfold, Hraw1. by rewrite andb_false_r.
  - repeat split. intros name. apply remove_matching_lookup.
Qed.

(** X12: when a line of a non-empty [ignore_regex] file is not a pattern,
    [applyIgnoreRules] lets [std::regex_error] escape before anything is
    written: every file is left as it was, and the secret pass does not
    run. *)
Theorem applyIgnoreRules_invalid_pattern (f : EntryFiles) (line : string) :
  holdsIgnoreRegexes f = true ->
  line ∈ fileLines (default EmptyString (ignore f)) ->
  regex_compile line = None ->
  applyIgnoreRules f = Threw regex_error f.
Proof.
  intros Hre Hin Hbad.
  assert (mapM regex_compile (fileLines (default EmptyString (ignore f))) = None) as Hnone.
  { apply mapM_None, Exists_exists. by exists line. }
  unfold applyIgnoreRules, applyIgnoreRegexes, ignoreRegexes.
  by rewrite Hre, Hnone.
Qed.

(** X13: the secret pass settles in one run.  When it changes the files,
    the raw file is empty afterwards and the entry no longer holds raw
    data; running the pass again changes nothing. *)
Theorem applyIgnoreSecrets_settles (f : EntryFiles) :
  applyIgnoreSecrets (applyIgnoreSecrets f) = applyIgnoreSecrets f /\
  (applyIgnoreSecrets f = f \/
   raw (applyIgnoreSecrets f) = Some EmptyString /\
   holdsRawDataInCurrentEntry (applyIgnoreSecrets f) = false).
Proof.
  rewrite (applyIgnoreSecrets_unfold f).
  destruct (holdsIgnoreSecrets f && holdsRawDataInCurrentEntry f
            && listed (default EmptyString (raw f)) (ignoreSecrets f)) eqn:Hfire.
  - assert (holdsRawDataInCurrentEntry (writeToFile_raw f EmptyString) = false) as Hraw.
    { unfold holdsRawDataInCurrentEntry. by rewrite raw_writeToFile_raw. }
    split.
    + rewrite applyIgnoreSecrets_unfold, Hraw. by rewrite andb_false_r.
    + right. split; [apply raw_writeToFile_raw|done].
  - split; [|by left]. by rewrite applyIgnoreSecrets_unfold, Hfire.
Qed.

Lemma applyIgnoreSecrets_frame (f : EntryFiles) (name : string) :
  ignore (applyIgnoreSecrets f) = ignore f /\
  ignore_secret (applyIgnoreSecrets f) = ignore_secret f /\
  (data_dir f !! name = None -> data_dir (applyIgnoreSecrets f) !! name = None) /\
  (name <> data_file_name ->
   data_dir (applyIgnoreSecrets f) !! name = data_dir f !! name).
Proof.
  rewrite applyIgnoreSecrets_unfold.
  destruct (holdsIgnoreSecrets f && holdsRawDataInCurrentEntry f
            && listed (default EmptyString (raw f)) (ignoreSecrets f)) eqn:Hfire;
    [|done].
  apply andb_true_iff in Hfire as [Hfire _].
  apply andb_true_iff in Hfire as [_ Hraw].
  apply holdsRaw_iff in Hraw as (content & Hraw & _). unfold raw in Hraw.
  repeat split; simpl.
  - intros Hnone. rewrite lookup_insert_ne; [done|]. intros <-. congruence.
  - intros Hne. by rewrite lookup_insert_ne.
Qed.

(** X14: what [applyIgnoreRules] never does.  When it returns, the two
    metadata files are as they were, no child of the entry directory has
    been created, and every child other than the raw file is either
    removed or left with the content it had. *)
Theorem applyIgnoreRules_frame (f f' : EntryFiles) (name : string) :
  applyIgnoreRules f = Returned f' ->
  ignore f' = ignore f /\
  ignore_secret f' = ignore_secret f /\
  (data_dir f !! name = None -> data_dir f' !! name = None) /\
  (name <> data_file_name ->
   data_dir f' !! name = data_dir f !! name \/ data_dir f' !! name = None).
Proof.
  unfold applyIgnoreRules.
  destruct (applyIgnoreRegexes f) as [f1| | |] eqn:Hfirst; try done.
  intros [= <-].
  destruct (applyIgnoreSecrets_frame f1 name) as (Hi & Hs & Hnew & Hother).
  rewrite Hi, Hs.
  assert (ignore f1 = ignore f /\ ignore_secret f1 = ignore_secret f /\
          (data_dir f !! name = None -> data_dir f1 !! name = None) /\
          (name <> data_file_name ->
           data_dir f1 !! name = data_dir f !! name \/ data_dir f1 !! name = None))
    as (Hi1 & Hs1 & Hnew1 & Hother1).
  { unfold applyIgnoreRegexes in Hfirst.
    destruct (holdsIgnoreRegexes f); [|injection Hfirst as <-; by auto].
    destruct (ignoreRegexes f) as [regexes|]; [|done].
    destruct (holdsRawDataInCurrentEntry f) eqn:Hraw; injection Hfirst as <-; simpl.
    - apply holdsRaw_iff in Hraw as (content & Hraw & _). unfold raw in Hraw.
      repeat split.
      + intros Hnone. rewrite lookup_insert_ne; [done|]. intros <-. congruence.
      + intros Hne. left. by rewrite lookup_insert_ne.
    - repeat split.
      + intros Hnone. rewrite remove_matching_lookup, Hnone.
        by destruct (existsb _ _).
      + intros _. rewrite remove_matching_lookup.
        destruct (existsb _ _); by auto. }
  repeat split; try done.
  - auto.
  - intros Hne. rewrite (Hother Hne). auto.
Qed.

End FilterBranches.

(** ** The shape of a formatted digest *)

Lemma length_round (v : list N) (kw : N * N) :
  length (Sha512.round v kw) = length v.
Proof.
  unfold Sha512.round.
  do 9 (destruct v as [|? v]; [reflexivity|]). reflexivity.
Qed.

Lemma length_rounds (v : list N) (kws : list (N * N)) :
  length (foldl Sha512.round v kws) = length v.
Proof.
  revert v. induction kws as [|kw kws IH]; intros v; [done|].
  simpl. by rewrite IH, length_round.
Qed.

Lemma length_compress (h block : list N) :
  length (Sha512.compress h block) = length h.
Proof.
  unfold Sha512.compress. rewrite length_zip_with, length_rounds. lia.
Qed.

Lemma length_compress_all (h : list N) (blocks : list (list N)) :
  length (foldl Sha512.compress h blocks) = length h.
Proof.
  revert h. induction blocks as [|b blocks IH]; intros h; [done|].
  simpl. by rewrite IH, length_compress.
Qed.

Lemma big_endian_bytes (width : nat) (x : N) :
  length (Sha512.big_endian width x) = width /\
  Forall (fun b => b < 256) (Sha512.big_endian width x).
Proof.
  unfold Sha512.big_endian. split.
  - by rewrite length_map, length_rev, length_seq.
  - apply Forall_fmap, Forall_forall. intros i _. simpl. apply N.mod_lt. lia.
Qed.

Lemma length_concat_big_endian (h : list N) :
  length (concat (map (Sha512.big_endian 8) h)) = (8 * length h)%nat.
Proof.
  induction h as [|x h IH]; [done|].
  cbn [map concat]. rewrite length_app, IH, (proj1 (big_endian_bytes 8 x)).
  simpl length. lia.
Qed.

Lemma digest_bytes (msg : list N) :
  length (Sha512.digest msg) = 64%nat /\ Forall (fun b => b < 256) (Sha512.digest msg).
Proof.
  unfold Sha512.digest.
  set (h := foldl Sha512.compress Sha512.H0 _).
  assert (length h = 8%nat) as Hlen by (unfold h; by rewrite length_compress_all).
  clearbody h. split.
  - by rewrite length_concat_big_endian, Hlen.
  - apply Forall_concat, Forall_fmap, Forall_forall. intros x _. simpl.
    apply big_endian_bytes.
Qed.

Lemma lowercase_hex_digit (n : N) : n < 16 -> lowercase_hex (hex_digit n) = true.
Proof.
  intros Hn.
  apply (checked_below (fun n => lowercase_hex (hex_digit n)) 16); [reflexivity|exact Hn].
Qed.

Lemma hex_of_bytes_shape (bs : list N) :
  Forall (fun b => b < 256) bs ->
  String.length (hex_of_bytes bs) = (2 * length bs)%nat /\
  all_chars lowercase_hex (hex_of_bytes bs) = true.
Proof.
  unfold hex_of_bytes. induction 1 as [|b bs Hb _ [IHlen IHall]]; [done|].
  cbn [map concat app string_of_list_ascii String.length all_chars length].
  rewrite IHlen, IHall. split; [lia|].
  rewrite !lowercase_hex_digit; [done|..].
  - apply N.mod_lt. lia.
  - apply N.Div0.div_lt_upper_bound. lia.
Qed.

(** X15: whatever the content, the text the secret pass compares with a
    line is 128 characters long and made of digits and the lower-case
    letters [a] to [f] only. *)
Theorem formatted_digest_shape (content : string) :
  String.length (hex_of_bytes (SHA512 content)) = 128%nat /\
  all_chars lowercase_hex (hex_of_bytes (SHA512 content)) = true.
Proof.
  destruct (digest_bytes (bytes_of_string content)) as [Hlen Hbytes].
  destruct (hex_of_bytes_shape (SHA512 content) Hbytes) as [Hl Hall].
  split; [|done]. rewrite Hl. unfold SHA512. by rewrite Hlen.
Qed.

Section MalformedSecrets.
Context {Names : Constants}.

(** X16: lines of [ignore_secret] that cannot be a formatted digest are
    tolerated: when every line has a length other than 128 or holds a
    character that is not a digit or a lower-case letter [a] to [f] (an
    upper-case digest, for one), the secret pass leaves the files as they
    are. *)
Theorem applyIgnoreSecrets_tolerates_malformed_lines (f : EntryFiles) :
  Forall (fun line => String.length line <> 128%nat \/ all_chars lowercase_hex line = false)
         (ignoreSecrets f) ->
  applyIgnoreSecrets f = f.
Proof.
  intros Hlines. rewrite applyIgnoreSecrets_unfold.
  assert (listed (default EmptyString (raw f)) (ignoreSecrets f) = false) as ->.
  { unfold listed. apply bool_decide_eq_false_2. intros Hin.
    rewrite Forall_forall in Hlines. specialize (Hlines _ Hin).
    destruct (digest_bytes (bytes_of_string (default EmptyString (raw f))))
      as [Hlen Hbytes].
    destruct (hex_of_bytes_shape _ Hbytes) as [Hl Hall].
    fold (SHA512 (default EmptyString (raw f))) in Hl, Hall.
    unfold SHA512 in Hl at 2. rewrite Hlen in Hl.
    destruct Hlines as [Hbad|Hbad]; [by apply Hbad|].
    by rewrite Hall in Hbad. }
  by rewrite andb_false_r.
Qed.

End MalformedSecrets.

(** ** The lock manager: waiting and re-entering *)

Lemma wait_for_holder_true (polls : list Poll) :
  wait_for_holder polls = true <->
  Exists (fun p => kill_fails p = true \/ still_locked p = false) polls.
Proof.
  induction polls as [|p polls IH]; simpl.
  - split; [done|]. by intros ?%Exists_nil.
  - rewrite Exists_cons, <- IH.
    destruct (kill_fails p), (still_locked p); simpl; intuition congruence.
Qed.

Lemma wait_for_holder_false (polls : list Poll) :
  wait_for_holder polls = false <->
  Forall (fun p => kill_fails p = false /\ still_locked p = true) polls.
Proof.
  induction polls as [|p polls IH]; simpl.
  - split; [constructor|done].
  - rewrite Forall_cons, <- IH.
    destruct (kill_fails p), (still_locked p); simpl; intuition congruence.
Qed.

(** X17: a lock that names a process outside the group of the caller is
    taken exactly when some turn of the loop finds the holder gone or the
    lock released; as long as every turn finds the holder alive and the
    lock held, [getLock] goes on polling: it has no time-out. *)
Theorem getLock_waits_for_holder
  (P : ProcessTable) (polls : list Poll) (content : string) (pid : Z) :
  content <> EmptyString ->
  stoi content = inr pid ->
  getpgrp P <> getpgid P pid ->
  (getLock P polls (Some content) = Done (Returned (Some (pretty (thisPID P)))) <->
   Exists (fun p => kill_fails p = true \/ still_locked p = false) polls) /\
  (getLock P polls (Some content) = StillPolling <->
   Forall (fun p => kill_fails p = false /\ still_locked p = true) polls).
Proof.
  intros Hne Hconv Hgrp. unfold getLock.
  rewrite (isLocked_nonempty content Hne). simpl. rewrite Hconv.
  destruct (decide (getpgrp P = getpgid P pid)) as [?|_]; [done|].
  rewrite <- wait_for_holder_true, <- wait_for_holder_false.
  by destruct (wait_for_holder polls).
Qed.

Lemma getLock_waits_for_holder_witness :
  getLock {| thisPID := 42; getpgrp := 7; getpgid := fun _ => 8%Z |}
    [{| kill_fails := false; still_locked := true |};
     {| kill_fails := false; still_locked := false |}] (Some "4711"%string) =
    Done (Returned (Some (pretty 42%Z))).
Proof.
  apply (getLock_waits_for_holder
           {| thisPID := 42; getpgrp := 7; getpgid := fun _ => 8%Z |} _ "4711"%string 4711).
  - discriminate.
  - reflexivity.
  - simpl. discriminate.
  - apply Exists_cons_tl, Exists_cons_hd. simpl. by right.
Defined.

(** X18: the lock is shared by the process group of its holder.  Whatever
    the lock file held, when [getLock] returns in a process [P] having
    written, the file holds the PID of [P] in a form [std::stoi] reads
    back.  A later [getLock] in any process [Q], be it [P] or another
    one, then returns at once and leaves the file as it is exactly when
    the system tells [Q] that [P] is of its own process group, whatever
    the other processes do; a process of another group waits for [P]
    instead, and writes its own PID once the wait ends. *)
Theorem getLock_reentrant
  (P Q : ProcessTable) (polls polls' : list Poll) (lock lock' : option string) :
  (INT_MIN <= thisPID P <= INT_MAX)%Z ->
  getLock P polls lock = Done (Returned lock') ->
  lock' <> lock ->
  lock' = Some (pretty (thisPID P)) /\
  stoi (pretty (thisPID P)) = inr (thisPID P) /\
  getLock Q polls' lock' =
    if decide (getpgrp Q = getpgid Q (thisPID P)) then Done (Returned lock')
    else if wait_for_holder polls' then Done (Returned (Some (pretty (thisPID Q))))
         else StillPolling.
Proof.
  intros Hpid Hrun Hchanged.
  pose proof (stoi_pretty (thisPID P) Hpid) as Hback.
  assert (lock' = Some (pretty (thisPID P))) as ->.
  { unfold getLock in Hrun. destruct (isLocked lock); [|by injection Hrun as <-].
    destruct (stoi (default EmptyString lock)) as [e|pid]; [done|].
    destruct (decide (getpgrp P = getpgid P pid)).
    - by injection Hrun as <-.
    - destruct (wait_for_holder polls); [by injection Hrun as <-|done]. }
  split; [done|]. split; [done|].
  unfold getLock.
  assert (pretty (thisPID P) <> EmptyString) as Hne.
  { intros Hempty. rewrite Hempty in Hback. done. }
  rewrite (isLocked_nonempty _ Hne). simpl. by rewrite Hback.
Qed.

(** The process 42 takes the free lock; the process 43 of its group then
    goes on at once although 42 lives on and holds the lock, and the
    process 50 of another group is still waiting after that turn. *)
Lemma getLock_reentrant_witness :
  getLock {| thisPID := 43; getpgrp := 7;
             getpgid := fun pid => if decide (pid = 42 \/ pid = 43)%Z then 7%Z else 8%Z |}
    [{| kill_fails := false; still_locked := true |}] (Some (pretty 42%Z)) =
    Done (Returned (Some (pretty 42%Z))) /\
  getLock {| thisPID := 50; getpgrp := 8;
             getpgid := fun pid => if decide (pid = 42 \/ pid = 43)%Z then 7%Z else 8%Z |}
    [{| kill_fails := false; still_locked := true |}] (Some (pretty 42%Z)) =
    StillPolling.
Proof.
  split.
  - destruct (getLock_reentrant
                {| thisPID := 42; getpgrp := 7;
                   getpgid := fun pid =>
                     if decide (pid = 42 \/ pid = 43)%Z then 7%Z else 8%Z |}
                {| thisPID := 43; getpgrp := 7;
                   getpgid := fun pid =>
                     if decide (pid = 42 \/ pid = 43)%Z then 7%Z else 8%Z |}
                [] [{| kill_fails := false; still_locked := true |}] None
                (Some (pretty 42%Z)))
      as (_ & _ & Hlater).
    + vm_compute. split; discriminate.
    + reflexivity.
    + discriminate.
    + exact Hlater.
  - destruct (getLock_reentrant
                {| thisPID := 42; getpgrp := 7;
                   getpgid := fun pid =>
                     if decide (pid = 42 \/ pid = 43)%Z then 7%Z else 8%Z |}
                {| thisPID := 50; getpgrp := 8;
                   getpgid := fun pid =>
                     if decide (pid = 42 \/ pid = 43)%Z then 7%Z else 8%Z |}
                [] [{| kill_fails := false; still_locked := true |}] None
                (Some (pretty 42%Z)))
      as (_ & _ & Hlater).
    + vm_compute. split; discriminate.
    + reflexivity.
    + discriminate.
    + exact Hlater.
Defined.

(** X19: [getLock] never returns on a lock it neither holds nor shares:
    when it returns, either the lock file holds the PID of the caller, or
    the file is as it was and names a process of the group of the
    caller. *)
Theorem getLock_returns_holding_or_sharing
  (P : ProcessTable) (polls : list Poll) (lock lock' : option string) :
  getLock P polls lock = Done (Returned lock') ->
  lock' = Some (pretty (thisPID P)) \/
  lock' = lock /\
  exists content pid,
    lock = Some content /\ stoi content = inr pid /\ getpgrp P = getpgid P pid.
Proof.
  unfold getLock. destruct (isLocked lock) eqn:Hlocked.
  - destruct lock as [content|]; [|done]. simpl.
    destruct (stoi content) as [e|pid] eqn:Hconv; [done|].
    destruct (decide (getpgrp P = getpgid P pid)) as [Hgrp|Hgrp].
    + intros [= <-]. right. split; [done|]. by exists content, pid.
    + destruct (wait_for_holder polls); [|done]. intros [= <-]. by left.
  - intros [= <-]. by left.
Qed.

Lemma getLock_returns_holding_or_sharing_witness :
  Some "4711"%string = Some (pretty 42%Z) \/
  Some "4711"%string = Some "4711"%string /\
  exists content pid,
    Some "4711"%string = Some content /\ stoi content = inr pid /\ 7%Z = 7%Z.
Proof.
  apply (getLock_returns_holding_or_sharing
           {| thisPID := 42; getpgrp := 7; getpgid := fun _ => 7%Z |}
           [] (Some "4711"%string) (Some "4711"%string)).
  reflexivity.
Defined.

(** ** The retention engine: what eviction leaves alone *)

Lemma evict_popped (b : Budgets) (now : Z) (index : list N) (st : Store) (k : Console)
  (index' : list N) (st' : Store) :
  evict b now index st k = Returned (index', st') ->
  exists n : nat,
    (n <= length index)%nat /\
    index' = take n index /\
    st' = foldl remove_all st (reverse (drop n index)).
Proof.
  intros Hrun. pose proof (evict_blocks b now index st k) as Hblocks.
  rewrite Hrun in Hblocks.
  destruct Hblocks as (l1 & st1 & l2 & st2 & Hsize & Hage & Hcount).
  pose proof (size_block_pops b (reverse index) st k) as P1. rewrite Hsize in P1.
  pose proof (age_block_pops b now l1 st1 k) as P2. rewrite Hage in P2.
  destruct (count_block_returns b l2 st2 k) as (d & Hcount' & _).
  rewrite Hcount in Hcount'. injection Hcount' as Hl3 Hst3.
  assert (popped l2 st2 (reverse index') st') as P3.
  { exists d. by rewrite Hl3, Hst3. }
  simpl in P1, P2.
  pose proof (popped_trans _ _ _ _ _ _ (popped_trans _ _ _ _ _ _ P1 P2) P3) as P.
  apply popped_reverse in P as (n & Hn & Hkeep & Hgone).
  rewrite reverse_involutive in Hkeep. by exists n.
Qed.

Section RetentionFrame.
Context {Engine : RegexEngine} {Floats : LongDouble}.

Lemma trimHistoryEntries_Returned (maximumHistorySize : string) (now : Z)
  (c c' : Clipboard) (st st' : Store) (k : Console) :
  trimHistoryEntries maximumHistorySize now c st k = Returned (c', st') ->
  this_entry c' = this_entry c /\
  data c' = data c /\
  exists n : nat,
    (n <= length (entryIndex c))%nat /\
    entryIndex c' = take n (entryIndex c) /\
    st' = foldl remove_all st (reverse (drop n (entryIndex c))).
Proof.
  unfold trimHistoryEntries.
  destruct (String.eqb maximumHistorySize EmptyString).
  { intros [= <- <-]. repeat split. exists (length (entryIndex c)).
    split; [lia|]. by rewrite take_ge, drop_ge by lia. }
  cbv zeta. set (b := parseSettings _).
  destruct (evict b now (entryIndex c) st k) as [[index' st1]| | |] eqn:Hrun; try done.
  simpl. intros [= <- <-]. simpl. repeat split.
  by apply (evict_popped b now _ st k).
Qed.

(** X20: what [trimHistoryEntries] never touches.  When it returns, the
    current position and the data handle are as they were, the index is a
    front part of the old index, the directories of the dropped back part
    are gone, every other entry directory is as it was, and so is
    everything under [root] outside the entry directories. *)
Theorem trimHistoryEntries_frame (maximumHistorySize : string) (now : Z)
  (c c' : Clipboard) (st st' : Store) (k : Console) :
  trimHistoryEntries maximumHistorySize now c st k = Returned (c', st') ->
  this_entry c' = this_entry c /\
  data c' = data c /\
  other_size st' = other_size st /\
  exists n : nat,
    (n <= length (entryIndex c))%nat /\
    entryIndex c' = take n (entryIndex c) /\
    forall o : N,
      entries st' !! o =
        if bool_decide (o ∈ drop n (entryIndex c)) then None else entries st !! o.
Proof.
  intros Hrun.
  destruct (trimHistoryEntries_Returned _ _ _ _ _ _ _ Hrun)
    as (Hthis & Hdata & n & Hn & Hkeep & ->).
  split; [done|]. split; [done|].
  split; [apply entries_foldl_remove_all; exact 0|].
  exists n. split; [done|]. split; [done|]. intros o.
  destruct (entries_foldl_remove_all st (reverse (drop n (entryIndex c))) o) as [_ ->].
  destruct (decide (o ∈ drop n (entryIndex c))) as [Hin|Hnin].
  - rewrite !bool_decide_eq_true_2; [done|done|]. by apply elem_of_reverse.
  - rewrite !bool_decide_eq_false_2; [done|done|]. by rewrite elem_of_reverse.
Qed.

(** X21: eviction can leave the current position dangling.  From a
    clipboard whose data handle follows its position, the clipboard
    [trimHistoryEntries] returns still has it so exactly when the position
    is among the elements kept; when the element at the position was
    popped, the position lies outside the index and the directory of the
    data handle has been removed. *)
Theorem trimHistoryEntries_current_position (maximumHistorySize : string) (now : Z)
  (c c' : Clipboard) (st st' : Store) (k : Console) :
  resolved c ->
  NoDup (entryIndex c) ->
  trimHistoryEntries maximumHistorySize now c st k = Returned (c', st') ->
  if decide (this_entry c < N.of_nat (length (entryIndex c')))
  then resolved c' /\ entries st' !! data c' = entries st !! data c
  else ~ resolved c' /\ entries st' !! data c' = None.
Proof.
  intros Hres Hnd Hrun.
  destruct (trimHistoryEntries_Returned _ _ _ _ _ _ _ Hrun)
    as (Hthis & Hdata & n & Hn & Hkeep & ->).
  unfold resolved, deque_at in *. rewrite Hthis, Hdata, Hkeep.
  destruct (entries_foldl_remove_all st (reverse (drop n (entryIndex c))) (data c))
    as [_ ->].
  rewrite length_take.
  rewrite <- (take_drop n (entryIndex c)) in Hnd.
  apply NoDup_app in Hnd as (_ & Hdisjoint & _).
  destruct (decide _) as [Hin|Hout].
  - rewrite lookup_take_lt by lia. split; [done|].
    rewrite bool_decide_eq_false_2; [done|].
    rewrite elem_of_reverse. apply Hdisjoint.
    apply list_elem_of_lookup. exists (N.to_nat (this_entry c)).
    by rewrite lookup_take_lt by lia.
  - split.
    + rewrite lookup_take_ge by lia. done.
    + rewrite bool_decide_eq_true_2; [done|].
      rewrite elem_of_reverse. apply list_elem_of_lookup.
      exists (N.to_nat (this_entry c) - n)%nat.
      rewrite lookup_drop. by replace (n + (N.to_nat (this_entry c) - n))%nat
        with (N.to_nat (this_entry c)) by lia.
Qed.

End RetentionFrame.

(** ** The retention engine: reading the settings *)

Section SettingsRead.
Context {Floats : LongDouble}.

Lemma assign_keeps (b : Budgets) (v : option N) :
  (maximumSeconds (assign set_maximumBytes b v) = maximumSeconds b /\
   maximumEntries (assign set_maximumBytes b v) = maximumEntries b) /\
  (maximumBytes (assign set_maximumSeconds b v) = maximumBytes b /\
   maximumEntries (assign set_maximumSeconds b v) = maximumEntries b) /\
  (maximumBytes (assign set_maximumEntries b v) = maximumBytes b /\
   maximumSeconds (assign set_maximumEntries b v) = maximumSeconds b).
Proof. by destruct v. Qed.

(** X23: the last character of a setting decides which budget it can
    change, whatever the case of the letter: with [b] only the size
    budget, with [y], [m], [w], [d], [h] or [s] only the age budget, with
    anything else only the count budget; the other two budgets are as
    they were. *)
Theorem parseSetting_unit_decides (b b' : Budgets) (t : string) (c2 : ascii) :
  parseSetting b t = b' ->
  String.get (String.length t - 1) t = Some c2 ->
  if Ascii.eqb (tolower c2) "b"
  then maximumSeconds b' = maximumSeconds b /\ maximumEntries b' = maximumEntries b
  else if unit_letter (tolower c2)
       then maximumBytes b' = maximumBytes b /\ maximumEntries b' = maximumEntries b
       else maximumBytes b' = maximumBytes b /\ maximumSeconds b' = maximumSeconds b.
Proof.
  intros <- Hget.
  destruct (lastTwoChars_last t c2 Hget) as (c1 & Htwo & _).
  unfold parseSetting. rewrite Htwo. cbn [String.eqb String.get].
  unfold unit_letter. cbn [existsb].
  destruct (Ascii.eqb (tolower c2) "b") eqn:Hb.
  - repeat (match goal with
            | |- context [if Ascii.eqb (tolower c1) ?x then _ else _] =>
                destruct (Ascii.eqb (tolower c1) x)
            end); apply assign_keeps.
  - replace (if Ascii.eqb (tolower c1) "t" then false else false) with false
      by (by destruct (Ascii.eqb (tolower c1) "t")).
    replace (if Ascii.eqb (tolower c1) "g" then false else false) with false
      by (by destruct (Ascii.eqb (tolower c1) "g")).
    replace (if Ascii.eqb (tolower c1) "m" then false else false) with false
      by (by destruct (Ascii.eqb (tolower c1) "m")).
    replace (if Ascii.eqb (tolower c1) "k" then false else false) with false
      by (by destruct (Ascii.eqb (tolower c1) "k")).
    cbn [orb].
    destruct (Ascii.eqb (tolower c2) "y"); [apply assign_keeps|].
    destruct (Ascii.eqb (tolower c2) "m"); [apply assign_keeps|].
    destruct (Ascii.eqb (tolower c2) "w"); [apply assign_keeps|].
    destruct (Ascii.eqb (tolower c2) "d"); [apply assign_keeps|].
    destruct (Ascii.eqb (tolower c2) "h"); [apply assign_keeps|].
    destruct (Ascii.eqb (tolower c2) "s"); apply assign_keeps.
Qed.

(** X24: the last setting wins.  After any settings, a final setting made
    of one digit or more whose value fits an [unsigned long] leaves the
    count budget at that value. *)
Theorem parseSettings_last_count (settings : list string) (t : string) :
  all_chars isdigit t = true ->
  t <> EmptyString ->
  decimal_value (leading_digits t) <= ULONG_MAX ->
  exists b,
    parseSettings (settings ++ [t]) = b /\
    maximumEntries b = decimal_value (leading_digits t).
Proof.
  intros Hdigits Hne Hfit. unfold parseSettings.
  rewrite parseSettings_from_app. cbn [parseSettings_from].
  rewrite (parseSetting_plain_integer _ t Hne Hdigits Hfit).
  by eexists.
Qed.

End SettingsRead.

Lemma parseSetting_unit_decides_witness :
  maximumSeconds (set_maximumBytes no_budget 64) = maximumSeconds no_budget /\
  maximumEntries (set_maximumBytes no_budget 64) = maximumEntries no_budget.
Proof.
  apply (@parseSetting_unit_decides no_long_double no_budget
           (set_maximumBytes no_budget 64) "64B"%string "B"%char).
  - vm_compute. reflexivity.
  - reflexivity.
Defined.

Lemma parseSettings_last_count_witness :
  exists b,
    @parseSettings no_long_double (app ["64b"; "10"; "2w"]%string ["20"%string]) = b /\
    maximumEntries b = decimal_value (leading_digits "20").
Proof.
  apply (@parseSettings_last_count no_long_double ["64b"; "10"; "2w"]%string "20"%string).
  - reflexivity.
  - discriminate.
  - vm_compute. discriminate.
Defined.

(** ** The retention engine: one budget at a time *)

Lemma int64_in_range (z : Z) : (- 2 ^ 63 <= z < 2 ^ 63)%Z -> int64 z = z.
Proof. intros Hz. unfold int64. rewrite Z.mod_small; lia. Qed.

Lemma int64_wraps (z : Z) : (2 ^ 63 <= z < 2 ^ 64)%Z -> int64 z = (z - 2 ^ 64)%Z.
Proof.
  intros Hz. unfold int64.
  replace (z + 2 ^ 63)%Z with ((z - 2 ^ 63) + 1 * 2 ^ 64)%Z by lia.
  rewrite Z.mod_add by lia. rewrite Z.mod_small; lia.
Qed.

(** While nothing leaves the range of the signed counts, the oldest time
    point allowed lies [maximumSeconds] seconds before [now]. *)
Lemma oldest_allowed_before (maximumSeconds : N) (now : Z) :
  (Z.of_N maximumSeconds * 10 ^ 9 < 2 ^ 63)%Z ->
  (- 2 ^ 63 <= now - Z.of_N maximumSeconds * 10 ^ 9)%Z ->
  (now < 2 ^ 63)%Z ->
  oldest_allowed maximumSeconds now = (now - Z.of_N maximumSeconds * 10 ^ 9)%Z.
Proof.
  intros Hfit Hlow Hnow. unfold oldest_allowed, nanoseconds.
  rewrite (int64_in_range (Z.of_N maximumSeconds)) by lia.
  rewrite (int64_in_range (Z.of_N maximumSeconds * 10 ^ 9)) by lia.
  apply int64_in_range. lia.
Qed.

(** A budget in the upper half of [unsigned long], as [std::stoul] gives
    for a setting with a minus sign, becomes a negative duration: the
    oldest time point allowed lies after [now]. *)
Lemma oldest_allowed_after (seconds : N) (now : Z) :
  0 < seconds ->
  (Z.of_N seconds * 10 ^ 9 <= 2 ^ 63)%Z ->
  (- 2 ^ 63 <= now)%Z ->
  (now + Z.of_N seconds * 10 ^ 9 < 2 ^ 63)%Z ->
  oldest_allowed (2 ^ 64 - seconds) now = (now + Z.of_N seconds * 10 ^ 9)%Z.
Proof.
  intros Hpos Hfit Hlow Hnow. unfold oldest_allowed, nanoseconds.
  assert (seconds < 2 ^ 63) as Hsmall by lia.
  rewrite N2Z.inj_sub by lia.
  change (Z.of_N (2 ^ 64)) with (2 ^ 64)%Z.
  rewrite (int64_wraps (2 ^ 64 - Z.of_N seconds)) by lia.
  rewrite (int64_in_range ((2 ^ 64 - Z.of_N seconds - 2 ^ 64) * 10 ^ 9)) by lia.
  rewrite int64_in_range; lia.
Qed.

Lemma lastModified_remove_all (st : Store) (now : Z) (removed o : N) :
  o <> removed -> lastModified (remove_all st removed) now o = lastModified st now o.
Proof.
  intros Hne. unfold lastModified, remove_all. simpl.
  by rewrite lookup_delete_ne.
Qed.

Lemma expired_remove_all (maximumSeconds : N) (now : Z) (st : Store) (removed o : N) :
  o <> removed ->
  expired maximumSeconds now (remove_all st removed) o <-> expired maximumSeconds now st o.
Proof. intros Hne. unfold expired. by rewrite lastModified_remove_all. Qed.

(** The age loop on a deque without repeated ordinals: it pops the
    longest run of expired elements at the back, and it ends the process
    when every element has expired. *)
Lemma evict_seconds_expired (maximumSeconds : N) (now : Z) (l : list N) (st : Store)
  (k : Console) :
  NoDup l ->
  match evict_seconds maximumSeconds now l st k with
  | Returned (l', st') =>
      exists j : nat,
        l' = drop j l /\
        st' = foldl remove_all st (take j l) /\
        Forall (expired maximumSeconds now st) (take j l) /\
        exists o, head l' = Some o /\ ~ expired maximumSeconds now st o
  | Exited status k' =>
      status = EXIT_FAILURE /\
      k' = reportNoSuchEntry (ulong_sub 0 1) k /\
      Forall (expired maximumSeconds now st) l
  | _ => False
  end.
Proof.
  revert st. induction l as [|oldest rest IH]; intros st Hnd; [done|].
  apply NoDup_cons in Hnd as [Hfresh Hnd].
  cbn [evict_seconds]. fold (expired maximumSeconds now st oldest).
  destruct (decide (expired maximumSeconds now st oldest)) as [Hexp|Hfresh'].
  - specialize (IH (remove_all st oldest) Hnd).
    assert (forall x, x ∈ rest ->
              expired maximumSeconds now (remove_all st oldest) x <->
              expired maximumSeconds now st x) as Hsame.
    { intros x Hx. apply expired_remove_all. intros ->. done. }
    destruct (evict_seconds maximumSeconds now rest (remove_all st oldest) k)
      as [[l' st']| |status k'|]; try done.
    + destruct IH as (j & -> & -> & Hall & o & Hhead & Ho).
      exists (S j). cbn [drop take foldl]. repeat split.
      * constructor; [done|]. rewrite Forall_forall in Hall |- *.
        intros x Hx. apply Hsame; [|by apply Hall].
        by apply (subseteq_take j rest).
      * exists o. split; [done|]. intros Hexp'. apply Ho, Hsame; [|done].
        apply head_Some in Hhead as [l'' Hl'']. apply (subseteq_drop j rest).
        rewrite Hl''. left.
    + destruct IH as (-> & -> & Hall). repeat split.
      constructor; [done|]. rewrite Forall_forall in Hall |- *.
      intros x Hx. by apply Hsame, Hall.
  - exists 0%nat. cbn [drop take foldl]. repeat split; [constructor|].
    by exists oldest.
Qed.

Lemma NoDup_reverse_index (l : list N) : NoDup l -> NoDup (reverse l).
Proof. intros Hnd. by rewrite reverse_Permutation. Qed.

Lemma count_block_off (b : Budgets) (l : list N) (st : Store) (k : Console) :
  maximumEntries b = 0 -> count_block b l st k = Returned (l, st).
Proof. intros Hz. unfold count_block. destruct (decide _); [lia|done]. Qed.

Section OneBudget.
Context {Engine : RegexEngine} {Floats : LongDouble}.

(** X25: with the age budget alone, on an index without repeated
    ordinals, [trimHistoryEntries] pops the expired entries at the back up
    to the first one that has not expired, which stays as the oldest
    entry; when every entry has expired the index is emptied and the
    process exits through the message of [entryPathFor].  An entry has
    expired when its modification time lies before [now] less the budget,
    both taken as the signed 64-bit counts the code computes with: for
    every value of the budget, those above [2^63] included, which count
    as negative durations. *)
Theorem trimHistoryEntries_age_budget (maximumHistorySize : string) (now : Z)
  (c : Clipboard) (st : Store) (k : Console) (b : Budgets) :
  maximumHistorySize <> EmptyString ->
  parseSettings (regexSplit_spaces maximumHistorySize) = b ->
  maximumBytes b = 0 ->
  maximumEntries b = 0 ->
  0 < maximumSeconds b ->
  NoDup (entryIndex c) ->
  match trimHistoryEntries maximumHistorySize now c st k with
  | Returned (c', st') =>
      exists n : nat,
        entryIndex c' = take n (entryIndex c) /\
        st' = foldl remove_all st (reverse (drop n (entryIndex c))) /\
        Forall (expired (maximumSeconds b) now st) (drop n (entryIndex c)) /\
        exists o, last (entryIndex c') = Some o /\ ~ expired (maximumSeconds b) now st o
  | Exited status k' =>
      status = EXIT_FAILURE /\
      k' = reportNoSuchEntry (ulong_sub 0 1) k /\
      Forall (expired (maximumSeconds b) now st) (entryIndex c)
  | _ => False
  end.
Proof.
  intros Hne Hparse Hbytes Hentries Hsec Hnd.
  rewrite (trimHistoryEntries_parsed _ now c st k b Hne Hparse).
  unfold evict. rewrite size_block_off by done. cbn [and_then].
  unfold age_block. destruct (decide (0 < maximumSeconds b)); [|lia].
  pose proof (evict_seconds_expired (maximumSeconds b) now (reverse (entryIndex c)) st k)
    as Hloop.
  destruct (evict_seconds _ now (reverse (entryIndex c)) st k)
    as [[l' st']| |status k'|]; cbn [and_then].
  - rewrite count_block_off by done. cbn [and_then entryIndex].
    destruct Hloop as (j & -> & -> & Hall & o & Hhead & Ho).
    { by apply NoDup_reverse_index. }
    exists (length (entryIndex c) - j)%nat.
    rewrite drop_reverse, reverse_involutive. split; [done|].
    rewrite take_reverse in *. split; [done|]. split.
    + by apply Forall_reverse.
    + exists o. split; [|done].
      rewrite drop_reverse in Hhead. by rewrite head_reverse in Hhead.
  - by apply Hloop, NoDup_reverse_index.
  - destruct Hloop as (-> & -> & Hall); [by apply NoDup_reverse_index|].
    repeat split. by apply Forall_reverse.
  - by apply Hloop, NoDup_reverse_index.
Qed.

(** X26: with the count budget alone, [trimHistoryEntries] always returns
    and never empties an index that was not empty: the newest entries up
    to the budget stay, the front among them. *)
Theorem trimHistoryEntries_count_only_keeps_newest (maximumHistorySize : string) (now : Z)
  (c : Clipboard) (st : Store) (k : Console) (b : Budgets) (front : N) (rest : list N) :
  maximumHistorySize <> EmptyString ->
  parseSettings (regexSplit_spaces maximumHistorySize) = b ->
  maximumBytes b = 0 ->
  maximumSeconds b = 0 ->
  0 < maximumEntries b ->
  entryIndex c = front :: rest ->
  exists c' st',
    trimHistoryEntries maximumHistorySize now c st k = Returned (c', st') /\
    entryIndex c' = take (N.to_nat (maximumEntries b)) (entryIndex c) /\
    head (entryIndex c') = Some front.
Proof.
  intros Hne Hparse Hbytes Hsec Hpos Hidx.
  rewrite (trimHistoryEntries_parsed _ now c st k b Hne Hparse).
  unfold evict. rewrite size_block_off by done. cbn [and_then].
  rewrite age_block_off by done. cbn [and_then].
  destruct (count_block_returns b (reverse (entryIndex c)) st k)
    as (d & -> & _ & [->|Hzero]); [|lia].
  cbn [and_then]. eexists _, _. split; [done|]. cbn [entryIndex].
  rewrite drop_reverse, reverse_involutive, length_reverse.
  assert (take (length (entryIndex c) - (length (entryIndex c) - N.to_nat (maximumEntries b)))
               (entryIndex c) =
          take (N.to_nat (maximumEntries b)) (entryIndex c)) as ->.
  { destruct (decide (N.to_nat (maximumEntries b) <= length (entryIndex c))%nat).
    - f_equal. lia.
    - rewrite !take_ge by lia. done. }
  split; [done|]. rewrite Hidx.
  destruct (N.to_nat (maximumEntries b)) as [|m] eqn:Hm; [lia|]. done.
Qed.

(** X27: settings that leave every budget at zero constrain nothing:
    [trimHistoryEntries] returns the clipboard and the store as they
    were. *)
Theorem trimHistoryEntries_without_budget (maximumHistorySize : string) (now : Z)
  (c : Clipboard) (st : Store) (k : Console) :
  maximumHistorySize <> EmptyString ->
  parseSettings (regexSplit_spaces maximumHistorySize) = no_budget ->
  trimHistoryEntries maximumHistorySize now c st k = Returned (c, st).
Proof.
  intros Hne Hparse.
  rewrite (trimHistoryEntries_parsed _ now c st k no_budget Hne Hparse).
  unfold evict. rewrite size_block_off by done. cbn [and_then].
  rewrite age_block_off by done. cbn [and_then].
  rewrite count_block_off by done. cbn [and_then].
  rewrite reverse_involutive. by destruct c.
Qed.

Lemma holdsData_front_beyond_size (c : Clipboard) (front : N) (rest : list N)
  (is_empty_entry : N -> option bool) (k : Console) :
  entryIndex c = front :: rest ->
  N.of_nat (length (entryIndex c)) <= front ->
  holdsData c is_empty_entry k = Ran (Exited EXIT_FAILURE (reportNoSuchEntry front k)).
Proof.
  intros Hidx Hbeyond. unfold holdsData. rewrite Hidx in *.
  cbn [holdsData_from]. unfold entryPathFor.
  by rewrite (deque_at_None _ _ Hbeyond).
Qed.

(** X28: after eviction [holdsData] is of no use.  When
    [trimHistoryEntries] returns from a history without gaps having
    popped some but not all of its entries, [holdsData] on the clipboard
    it returns ends the process with the message naming the front
    ordinal, whatever the entry directories hold. *)
Theorem holdsData_after_eviction (maximumHistorySize : string) (now : Z)
  (c c' : Clipboard) (st st' : Store) (k k' : Console) (m : nat)
  (is_empty_entry : N -> option bool) :
  entryIndex c = countdown m ->
  trimHistoryEntries maximumHistorySize now c st k = Returned (c', st') ->
  entryIndex c' <> [] ->
  entryIndex c' <> entryIndex c ->
  holdsData c' is_empty_entry k' =
    Ran (Exited EXIT_FAILURE
           {| clipboard_state_Error := true;
              indicator_running := false;
              stderr := stderr k' ++ [NoSuchEntryMessage (N.of_nat m - 1)] |}).
Proof.
  intros Hidx Hrun Hne Hpopped.
  destruct (trimHistoryEntries_Returned _ _ _ _ _ _ _ Hrun)
    as (_ & _ & n & Hn & Hkeep & _).
  rewrite Hidx, length_countdown in *.
  destruct m as [|m]; [rewrite Hkeep in Hne; by destruct n|].
  destruct n as [|n]; [by rewrite Hkeep in Hne|].
  assert (n < m)%nat as Hlt.
  { destruct (decide (n < m)%nat); [done|]. exfalso. apply Hpopped.
    rewrite Hkeep, take_ge; [done|]. rewrite length_countdown. lia. }
  rewrite countdown_S in Hkeep. cbn [take] in Hkeep.
  replace (N.of_nat (S m) - 1) with (N.of_nat m) by lia.
  rewrite (holdsData_front_beyond_size c' (N.of_nat m) (take n (countdown m))
             is_empty_entry k' Hkeep).
  - reflexivity.
  - rewrite Hkeep. cbn [length]. rewrite length_take, length_countdown. lia.
Qed.

End OneBudget.

(** ** The further properties on concrete files and stores *)

Lemma applyIgnoreRules_removes_matching_children_witness :
  exists f',
    @applyIgnoreRules literal_engine example_constants files_items = Returned f' /\
    ignore f' = ignore files_items /\
    ignore_secret f' = ignore_secret files_items /\
    forall name : string,
      data_dir f' !! name =
        if existsb (@regex_match literal_engine name) ["secret"%string]
        then None else data_dir files_items !! name.
Proof.
  apply (@applyIgnoreRules_removes_matching_children literal_engine example_constants
           files_items ["secret"%string]).
  - reflexivity.
  - reflexivity.
  - vm_compute. reflexivity.
Defined.

Lemma applyIgnoreRules_invalid_pattern_witness :
  @applyIgnoreRules literal_engine example_constants files_bad_pattern =
    Threw regex_error files_bad_pattern.
Proof.
  apply (@applyIgnoreRules_invalid_pattern literal_engine example_constants
           files_bad_pattern "("%string).
  - reflexivity.
  - apply list_elem_of_In. vm_compute. left. reflexivity.
  - reflexivity.
Defined.

Lemma applyIgnoreRules_frame_witness :
  ignore (@writeToFile_raw example_constants files_password1 EmptyString) =
    ignore files_password1 /\
  ignore_secret (@writeToFile_raw example_constants files_password1 EmptyString) =
    ignore_secret files_password1 /\
  (data_dir files_password1 !! "other"%string = None ->
   data_dir (@writeToFile_raw example_constants files_password1 EmptyString)
     !! "other"%string = None) /\
  ("other"%string <> @data_file_name example_constants ->
   data_dir (@writeToFile_raw example_constants files_password1 EmptyString)
     !! "other"%string = data_dir files_password1 !! "other"%string \/
   data_dir (@writeToFile_raw example_constants files_password1 EmptyString)
     !! "other"%string = None).
Proof.
  apply (@applyIgnoreRules_frame literal_engine example_constants files_password1).
  vm_compute. reflexivity.
Defined.

Lemma applyIgnoreSecrets_tolerates_malformed_lines_witness :
  @applyIgnoreSecrets example_constants files_short_secret = files_short_secret.
Proof.
  apply (@applyIgnoreSecrets_tolerates_malformed_lines example_constants).
  assert (ignoreSecrets files_short_secret = ["abc"%string]) as -> by reflexivity.
  constructor; [|constructor]. left. simpl. discriminate.
Defined.

Lemma trimHistoryEntries_frame_witness :
  this_entry clip_two = this_entry clip_four /\
  data clip_two = data clip_four /\
  other_size (foldl remove_all store_four [0; 1]) = other_size store_four /\
  exists n : nat,
    (n <= length (entryIndex clip_four))%nat /\
    entryIndex clip_two = take n (entryIndex clip_four) /\
    forall o : N,
      entries (foldl remove_all store_four [0; 1]) !! o =
        if bool_decide (o ∈ drop n (entryIndex clip_four))
        then None else entries store_four !! o.
Proof.
  apply (@trimHistoryEntries_frame literal_engine no_long_double "02"%string 0
           clip_four clip_two store_four (foldl remove_all store_four [0; 1]) console0).
  vm_compute. reflexivity.
Defined.

Lemma trimHistoryEntries_current_position_witness :
  ~ resolved {| this_entry := 3; entryIndex := [3; 2]; data := 0 |} /\
  entries (foldl remove_all store_four [0; 1]) !! 0 = None.
Proof.
  apply (@trimHistoryEntries_current_position literal_engine no_long_double "02"%string 0
           clip_oldest {| this_entry := 3; entryIndex := [3; 2]; data := 0 |}
           store_four (foldl remove_all store_four [0; 1]) console0).
  - reflexivity.
  - apply (bool_decide_unpack (NoDup [3; 2; 1; 0])). vm_compute. exact I.
  - vm_compute. reflexivity.
Defined.

Lemma trimHistoryEntries_age_budget_witness :
  match @trimHistoryEntries literal_engine no_long_double "07s"%string
          (100 * 10 ^ 9) clip_four store_aging console0 with
  | Returned (c', st') =>
      exists n : nat,
        entryIndex c' = take n (entryIndex clip_four) /\
        st' = foldl remove_all store_aging (reverse (drop n (entryIndex clip_four))) /\
        Forall (expired 7 (100 * 10 ^ 9) store_aging) (drop n (entryIndex clip_four)) /\
        exists o, last (entryIndex c') = Some o /\
                  ~ expired 7 (100 * 10 ^ 9) store_aging o
  | Exited status k' =>
      status = EXIT_FAILURE /\
      k' = reportNoSuchEntry (ulong_sub 0 1) console0 /\
      Forall (expired 7 (100 * 10 ^ 9) store_aging) (entryIndex clip_four)
  | _ => False
  end.
Proof.
  apply (@trimHistoryEntries_age_budget literal_engine no_long_double "07s"%string
           (100 * 10 ^ 9) clip_four store_aging console0
           {| maximumBytes := 0; maximumSeconds := 7; maximumEntries := 0 |}).
  - discriminate.
  - vm_compute. reflexivity.
  - reflexivity.
  - reflexivity.
  - reflexivity.
  - apply (bool_decide_unpack (NoDup [3; 2; 1; 0])). vm_compute. exact I.
Defined.

(** Of the four entries the two last modified 80 and 90 seconds ago go. *)
Example trimHistoryEntries_age_budget_run :
  exists st',
    @trimHistoryEntries literal_engine no_long_double "07s"%string
      (100 * 10 ^ 9) clip_four store_aging console0 = Returned (clip_two, st').
Proof. eexists. vm_compute. reflexivity. Qed.

(** With the setting [-5s] the budget is [2^64 - 5], the duration is one of
    minus five seconds, and every entry last modified before [now] plus
    five seconds has expired: all four entries go and the process exits
    with the message for the position [2^64 - 1]. *)
Example trimHistoryEntries_age_budget_negative :
  @parseSettings no_long_double (@regexSplit_spaces literal_engine "-5s") =
    {| maximumBytes := 0; maximumSeconds := 2 ^ 64 - 5; maximumEntries := 0 |} /\
  oldest_allowed (2 ^ 64 - 5) (100 * 10 ^ 9) = (105 * 10 ^ 9)%Z /\
  @trimHistoryEntries literal_engine no_long_double "-5s"%string
    (100 * 10 ^ 9) clip_four store_aging console0 =
    Exited 1 {| clipboard_state_Error := true;
                indicator_running := false;
                stderr := [NoSuchEntryMessage ULONG_MAX] |}.
Proof. repeat split; vm_compute; reflexivity. Qed.

Lemma trimHistoryEntries_count_only_keeps_newest_witness :
  exists c' st',
    @trimHistoryEntries literal_engine no_long_double "01"%string 0 clip_four store_four
      console0 = Returned (c', st') /\
    entryIndex c' = take (N.to_nat 1) (entryIndex clip_four) /\
    head (entryIndex c') = Some 3.
Proof.
  apply (@trimHistoryEntries_count_only_keeps_newest literal_engine no_long_double
           "01"%string 0 clip_four store_four console0
           {| maximumBytes := 0; maximumSeconds := 0; maximumEntries := 1 |} 3 [2; 1; 0]).
  - discriminate.
  - vm_compute. reflexivity.
  - reflexivity.
  - reflexivity.
  - reflexivity.
  - reflexivity.
Defined.

Lemma trimHistoryEntries_without_budget_witness :
  @trimHistoryEntries literal_engine no_long_double "zz 00"%string 0 clip_four store_four
    console0 = Returned (clip_four, store_four).
Proof.
  apply (@trimHistoryEntries_without_budget literal_engine no_long_double).
  - discriminate.
  - vm_compute. reflexivity.
Defined.

Lemma holdsData_after_eviction_witness :
  holdsData clip_two (fun _ => Some false) console0 =
    Ran (Exited EXIT_FAILURE
           {| clipboard_state_Error := true;
              indicator_running := false;
              stderr := stderr console0 ++ [NoSuchEntryMessage (N.of_nat 4 - 1)] |}).
Proof.
  apply (@holdsData_after_eviction literal_engine no_long_double "02"%string 0
           clip_four clip_two store_four (foldl remove_all store_four [0; 1])
           console0 console0 4).
  - reflexivity.
  - vm_compute. reflexivity.
  - discriminate.
  - discriminate.
Defined.

(** ** The two platform branches of the index *)




(** Names with a sign or leading white space set the branches apart. *)
Example generatedEntryIndex_platforms_differ :
  generatedEntryIndex ["+5"; " 7"]%string = [0] /\
  generatedEntryIndex_portable ["+5"; " 7"]%string = [7; 5].
Proof. split; reflexivity. Qed.
